(** * libscrape: crawl, filter and download pipeline

    A shallow embedding of [libscrape.py] and the properties of its
    classifier, page fetcher, downloader and crawl driver.

    Python [str] values are sequences of Unicode code points and are
    modelled as [list Z].  The parts of the run-time that depend on the
    Unicode character database or on the version of the standard library
    ([str.lower], the regular expression class [\w], [urlparse]) are the
    fields of the class [PyRuntime]; the functions of the program are
    written once, for every instance.  [cpython_fragment] is an instance
    that computes, for the blocks of code points it lists. *)

From Stdlib Require Import ZArith List Bool Lia DecimalString DecimalPos.
From stdpp Require Import base gmap sets list strings.

Abbreviation pystr := (list Z) (only parsing).

(** ** Text primitives *)

(** An ASCII literal as a Python string. *)
Definition str (s : string) : pystr :=
  map (fun a => Z.of_N (Ascii.N_of_ascii a)) (String.list_ascii_of_string s).

Definition in_range (lo hi c : Z) : bool := ((lo <=? c) && (c <=? hi))%Z.

(** [needle in hay] on strings: [needle] occurs as a contiguous substring. *)
Fixpoint starts_with (p s : pystr) : bool :=
  match p, s with
  | [], _ => true
  | _ :: _, [] => false
  | a :: p', b :: s' => (a =? b)%Z && starts_with p' s'
  end.

Fixpoint str_contains (needle hay : pystr) : bool :=
  starts_with needle hay ||
  match hay with
  | [] => false
  | _ :: hay' => str_contains needle hay'
  end.

(** [s.endswith(suffix)] and [s.endswith((suf1, suf2, ...))]. *)
Definition endswith (s suffix : pystr) : bool :=
  starts_with (rev suffix) (rev s).

Definition endswith_any (s : pystr) (suffixes : list pystr) : bool :=
  existsb (endswith s) suffixes.

(** [s.split(sep)[-1]] for a one-character separator: the text after the
    last separator, the whole string when there is none. *)
Fixpoint split_last (sep : Z) (s : pystr) : pystr :=
  match s with
  | [] => []
  | c :: s' =>
      if existsb (Z.eqb sep) s' then split_last sep s'
      else if (c =? sep)%Z then s' else s
  end.

(** ** The run-time library *)

Inductive exn : Type :=
  | ValueError
  | ZeroDivisionError
  | OSError.

Class PyRuntime : Type := {
  (** [str.lower()] *)
  str_lower : pystr -> pystr;
  (** the class [\w] of [re] on [str] patterns *)
  is_word : Z -> bool;
  (** [urlparse(href).netloc]; [None] when [urlparse] raises [ValueError] *)
  urlparse_netloc : pystr -> option pystr
}.

(** ** urllib.parse.unquote *)

Definition hexval (c : Z) : option Z :=
  if in_range 48 57 c then Some (c - 48)%Z
  else if in_range 65 70 c then Some (c - 55)%Z
  else if in_range 97 102 c then Some (c - 87)%Z
  else None.

(** [unquote_to_bytes] on an ASCII string: each [%] followed by two
    hexadecimal digits becomes that byte, any other [%] stays.  The library
    splits at [%] and looks the first two characters of each piece up in
    its table; a hexadecimal digit is never [%], so that is this scan. *)
Fixpoint unquote_to_bytes (s : pystr) : list Z :=
  match s with
  | [] => []
  | c :: t =>
      if (c =? 37)%Z then
        match t with
        | h :: l :: r =>
            match hexval h, hexval l with
            | Some a, Some b => (16 * a + b)%Z :: unquote_to_bytes r
            | _, _ => 37%Z :: unquote_to_bytes t
            end
        | _ => 37%Z :: unquote_to_bytes t
        end
      else c :: unquote_to_bytes t
  end.

Definition REPLACEMENT : Z := 0xFFFD%Z.

Definition is_cont (b : Z) : bool := in_range 0x80 0xBF b.

(** The second byte of a three-byte sequence: no overlong form after [E0],
    no surrogate after [ED]. *)
Definition second_of_3 (b0 b1 : Z) : bool :=
  if (b0 =? 0xE0)%Z then in_range 0xA0 0xBF b1
  else if (b0 =? 0xED)%Z then in_range 0x80 0x9F b1
  else is_cont b1.

(** The second byte of a four-byte sequence: no overlong form after [F0],
    nothing above U+10FFFF after [F4]. *)
Definition second_of_4 (b0 b1 : Z) : bool :=
  if (b0 =? 0xF0)%Z then in_range 0x90 0xBF b1
  else if (b0 =? 0xF4)%Z then in_range 0x80 0x8F b1
  else is_cont b1.

(** [bytes.decode('utf-8', 'replace')]: every maximal ill-formed
    subsequence becomes one U+FFFD. *)
Fixpoint utf8_decode_replace (bs : list Z) : pystr :=
  match bs with
  | [] => []
  | b0 :: t0 =>
      if (b0 <? 0x80)%Z then b0 :: utf8_decode_replace t0
      else if in_range 0xC2 0xDF b0 then
        match t0 with
        | [] => [REPLACEMENT]
        | b1 :: t1 =>
            if is_cont b1
            then ((b0 - 0xC0) * 64 + (b1 - 0x80))%Z :: utf8_decode_replace t1
            else REPLACEMENT :: utf8_decode_replace t0
        end
      else if in_range 0xE0 0xEF b0 then
        match t0 with
        | [] => [REPLACEMENT]
        | b1 :: t1 =>
            if second_of_3 b0 b1 then
              match t1 with
              | [] => [REPLACEMENT]
              | b2 :: t2 =>
                  if is_cont b2
                  then ((b0 - 0xE0) * 4096 + (b1 - 0x80) * 64 + (b2 - 0x80))%Z
                       :: utf8_decode_replace t2
                  else REPLACEMENT :: utf8_decode_replace t1
              end
            else REPLACEMENT :: utf8_decode_replace t0
        end
      else if in_range 0xF0 0xF4 b0 then
        match t0 with
        | [] => [REPLACEMENT]
        | b1 :: t1 =>
            if second_of_4 b0 b1 then
              match t1 with
              | [] => [REPLACEMENT]
              | b2 :: t2 =>
                  if is_cont b2 then
                    match t2 with
                    | [] => [REPLACEMENT]
                    | b3 :: t3 =>
                        if is_cont b3
                        then ((b0 - 0xF0) * 262144 + (b1 - 0x80) * 4096
                              + (b2 - 0x80) * 64 + (b3 - 0x80))%Z
                             :: utf8_decode_replace t3
                        else REPLACEMENT :: utf8_decode_replace t2
                    end
                  else REPLACEMENT :: utf8_decode_replace t1
              end
            else REPLACEMENT :: utf8_decode_replace t0
        end
      else REPLACEMENT :: utf8_decode_replace t0
  end.

(** One run of ASCII characters ([_asciire]), held in reverse. *)
Definition decode_run (run : pystr) : pystr :=
  utf8_decode_replace (unquote_to_bytes (rev run)).

(** The loop of [unquote] over [_asciire.split(string)]: the runs of ASCII
    characters are unquoted and decoded, the text between them is kept. *)
Fixpoint unquote_runs (run s : pystr) : pystr :=
  match s with
  | [] => decode_run run
  | c :: t =>
      if (c <? 0x80)%Z then unquote_runs (c :: run) t
      else decode_run run ++ c :: unquote_runs [] t
  end.

Definition unquote (s : pystr) : pystr :=
  if existsb (Z.eqb 37) s then unquote_runs [] s else s.

(** ** Constants *)

Definition BASE_URL : pystr := str "https://example.org/d/".
Definition DOWNLOAD_DIR : pystr := str "downloads".
Definition MAX_CONCURRENT_DOWNLOADS : nat := 4.
Definition DELAY_BETWEEN_REQUESTS : Z := 3.
Definition PREFERRED_DOMAIN : pystr := str "download.example.lol".
Definition MAX_RETRIES : nat := 3.
Definition SERVICE_UNAVAILABLE_RETRIES : nat := 2.
Definition SERVICE_UNAVAILABLE_DELAY : Z := 15.

Definition COMMON_ENGLISH_WORDS : list pystr :=
  map str
    ["the"; "and"; "of"; "to"; "a"; "in"; "is"; "it"; "you"; "that"; "he";
     "was"; "for"; "on"; "are"; "with"; "as"; "I"; "his"; "they"; "be"; "at";
     "one"; "have"; "this"; "from"; "or"; "had"; "by"; "not"; "but"; "what";
     "all"; "security"; "architecture"; "how"; "why"; "forensics"; "series";
     "digital"; "river"; "publishers"; "students"; "research"; "hunting";
     "book"; "god"; "system"; "methods"; "embedded"; "controller";
     "learning"; "crisis"; "intervention"; "stories"; "born"; "crime"]%string.

(** The two entries outside ASCII are written with their code points:
    U+00E1 in the first, U+00FC in the twelfth. *)
Definition FOREIGN_STOPWORDS : list pystr :=
  [ str "matem" ++ [0xE1%Z] ++ str "tica"; str "psychologie"; str "etudes";
    str "le"; str "la"; str "de"; str "del"; str "das"; str "dos"; str "es";
    str "et"; str "f" ++ [0xFC%Z] ++ str "r"; str "y"; str "en" ].

(** ** Classifier *)

(** A pattern of [NON_ENGLISH_PATTERNS] is one character class: a list of
    code point ranges, ends included. *)
Definition NON_ENGLISH_PATTERNS : list (list (Z * Z)) :=
  [ [ (0x4E00, 0x9FA5) ];
    [ (0x03B1, 0x03C9); (0x0391, 0x03A9) ];
    [ (0x0430, 0x044F); (0x0410, 0x042F) ] ]%Z.

Definition class_matches (cls : list (Z * Z)) (c : Z) : bool :=
  existsb (fun r => in_range (fst r) (snd r) c) cls.

(** [re.search(pattern, s)] for a pattern that is one character class. *)
Definition re_search (cls : list (Z * Z)) (s : pystr) : bool :=
  existsb (class_matches cls) s.

(** The first pattern of the list found in [s], as the [for] loop over
    [NON_ENGLISH_PATTERNS] meets it. *)
Definition first_pattern (patterns : list (list (Z * Z))) (s : pystr)
  : option (list (Z * Z)) :=
  List.find (fun cls => re_search cls s) patterns.

(** The code point [c] lies in a range of one of the patterns. *)
Definition in_script (c : Z) : bool :=
  existsb (fun cls => class_matches cls c) NON_ENGLISH_PATTERNS.

(** Some code point of [s] lies in one of the script ranges. *)
Definition has_script (s : pystr) : bool := existsb in_script s.

(** What the body of [is_english_file] does before it returns: the branch
    taken, with what the branch prints. *)
Inductive branch : Type :=
  | NonEnglishCharacters (pattern : list (Z * Z))
  | ForeignWords (found : list pystr)
  | Uncertain
  | LikelyEnglish.

Inductive outcome (A : Type) : Type :=
  | Returns (a : A)
  | Raises (e : exn).
Arguments Returns {A} a.
Arguments Raises {A} e.

Definition verdict (b : branch) : bool :=
  match b with
  | NonEnglishCharacters _ | ForeignWords _ => false
  | Uncertain | LikelyEnglish => true
  end.

(** [a / b < 0.4] on two lengths.  Python divides in floating point and
    raises [ZeroDivisionError] when [b] is zero; the comparison is taken on
    the exact quotient, [a / b < 2 / 5]. *)
Definition ratio_below_0_4 (a b : nat) : outcome bool :=
  match b with
  | O => Raises ZeroDivisionError
  | S _ => Returns (5 * a <? 2 * b)
  end.

(** [x == 0 or y]: [y] is evaluated only when the left operand is false. *)
Definition or_else (left : bool) (right : outcome bool) : outcome bool :=
  if left then Returns true else right.

Section Classifier.
Context `{PyRuntime}.

(** [re.findall(r'\b\w+\b', s)]: the maximal runs of word characters, left
    to right.  [cur] holds the run being read, in reverse. *)
Fixpoint findall_words_from (cur s : pystr) : list pystr :=
  match s with
  | [] => match cur with [] => [] | _ :: _ => [rev cur] end
  | c :: s' =>
      if is_word c then findall_words_from (c :: cur) s'
      else match cur with
           | [] => findall_words_from [] s'
           | _ :: _ => rev cur :: findall_words_from [] s'
           end
  end.

Definition findall_words (s : pystr) : list pystr := findall_words_from [] s.

(** [decoded_name = unquote(filename).lower()] *)
Definition decoded_name (filename : pystr) : pystr :=
  str_lower (unquote filename).

(** [sum(word in COMMON_ENGLISH_WORDS for word in words)] *)
Definition english_word_count (words : list pystr) : nat :=
  length (filter (fun w => w ∈ COMMON_ENGLISH_WORDS) words).

(** [[word for word in words if word in FOREIGN_STOPWORDS]] *)
Definition found_foreign_words (words : list pystr) : list pystr :=
  filter (fun w => w ∈ FOREIGN_STOPWORDS) words.

Definition is_english_file_branch (filename : pystr) : outcome branch :=
  let name := decoded_name filename in
  match first_pattern NON_ENGLISH_PATTERNS name with
  | Some pattern => Returns (NonEnglishCharacters pattern)
  | None =>
      let words := findall_words name in
      let total_words := length words in
      let count := english_word_count words in
      match found_foreign_words words with
      | (_ :: _) as found => Returns (ForeignWords found)
      | [] =>
          match or_else (count =? 0) (ratio_below_0_4 count total_words) with
          | Raises e => Raises e
          | Returns true => Returns Uncertain
          | Returns false => Returns LikelyEnglish
          end
      end
  end.

Definition is_english_file (filename : pystr) : outcome bool :=
  match is_english_file_branch filename with
  | Returns b => Returns (verdict b)
  | Raises e => Raises e
  end.

(** [unquote(url.split("/")[-1])] *)
Definition friendly_filename (url : pystr) : pystr :=
  unquote (split_last 47 url).
End Classifier.

(** ** The world outside the program *)

(** What one call of [requests.get] gives: a response, with its status code
    and the [href] values of [soup.find_all("a", href=True)] on its text, in
    document order, or an exception of the family [RequestException]. *)
Inductive http_reply : Type :=
  | Response (status_code : Z) (hrefs : list pystr)
  | RequestException.

(** What one run of [wget -c -O temp_path url] gives: its exit status, and
    whether it leaves a file at [temp_path] behind.  With exit status 0 the
    output file is there. *)
Record wget_result : Type := {
  returncode : Z;
  leaves_output : bool
}.

(** The surroundings of one run of the program.  The [n]-th call of
    [requests.get] and the [n]-th run of [wget] (counted from 0, over the
    whole run) are answered by [http_get n] and [wget n].  [isdir] is
    [os.path.isdir]: the program makes [DOWNLOAD_DIR] when it is loaded
    and no directory after that, and it removes none. *)
Record environment : Type := {
  http_get : nat -> pystr -> http_reply;
  wget : nat -> pystr -> wget_result;
  getcwd : pystr;
  isdir : pystr -> bool
}.

(** The state the program acts on.  The logs have the latest entry first.
    [files] holds the paths at which [os.path.exists] answers true, taken
    as strings; [completed] holds the page numbers written to
    [COMPLETED.TXT], so its head is what the file contains. *)
Record world : Type := {
  requests : list pystr;
  wget_runs : list pystr;
  sleeps : list Z;
  classified : list pystr;
  submitted : list pystr;
  files : gset pystr;
  completed : list Z
}.

Definition M (A : Type) : Type := world -> outcome A * world.

Definition ret {A} (a : A) : M A := fun w => (Returns a, w).
Definition raise {A} (e : exn) : M A := fun w => (Raises e, w).
Definition bind {A B} (m : M A) (k : A -> M B) : M B :=
  fun w =>
    match m w with
    | (Returns a, w') => k a w'
    | (Raises e, w') => (Raises e, w')
    end.
Definition lift {A} (o : outcome A) : M A := fun w => (o, w).

Notation "'let*' x ':=' m 'in' k" := (bind m (fun x => k))
  (at level 10, x name, m at level 100, k at level 200).

(** How the body of a loop ends: it falls through to the next iteration
    (also by [continue]), it leaves the loop by [break], or it leaves the
    function by [return]. *)
Inductive control (A : Type) : Type :=
  | Next
  | Break
  | Return (a : A).
Arguments Next {A}.
Arguments Break {A}.
Arguments Return {A} a.

(** [for item in items: body]; [None] when the loop ends without [return]. *)
Fixpoint for_each {I A} (items : list I) (body : I -> M (control A))
  : M (option A) :=
  match items with
  | [] => ret None
  | item :: rest =>
      let* c := body item in
      match c with
      | Next => for_each rest body
      | Break => ret None
      | Return a => ret (Some a)
      end
  end.

Definition sleep (seconds : Z) : M unit := fun w =>
  (Returns tt,
   {| requests := requests w; wget_runs := wget_runs w;
      sleeps := seconds :: sleeps w; classified := classified w;
      submitted := submitted w; files := files w;
      completed := completed w |}).

Definition set_files (f : gset pystr -> gset pystr) : M unit := fun w =>
  (Returns tt,
   {| requests := requests w; wget_runs := wget_runs w;
      sleeps := sleeps w; classified := classified w;
      submitted := submitted w; files := f (files w);
      completed := completed w |}).

Definition path_exists (path : pystr) : M bool := fun w =>
  (Returns (bool_decide (path ∈ files w)), w).

(** [str(n)] for an integer. *)
Definition str_of_int (n : Z) : pystr :=
  str (DecimalString.NilZero.string_of_int (Z.to_int n)).

(** [os.path.join(a, b)] of [posixpath]. *)
Definition path_join (a b : pystr) : pystr :=
  if starts_with [47%Z] b then b
  else if bool_decide (a = []) || endswith a [47%Z] then a ++ b
  else a ++ 47%Z :: b.

(** [p[:p.rfind(sep) + 1]]: the text up to the last separator, with it;
    empty when there is none. *)
Fixpoint split_head (sep : Z) (s : pystr) : pystr :=
  match s with
  | [] => []
  | c :: s' =>
      if existsb (Z.eqb sep) s' then c :: split_head sep s'
      else if (c =? sep)%Z then [c] else []
  end.

Fixpoint lstrip_char (sep : Z) (s : pystr) : pystr :=
  match s with
  | c :: rest => if (c =? sep)%Z then lstrip_char sep rest else s
  | [] => []
  end.

(** [os.path.dirname(p)] of [posixpath]: the head of the path without its
    trailing slashes, unless it is made of slashes only. *)
Definition dirname (p : pystr) : pystr :=
  let head := split_head 47 p in
  if forallb (Z.eqb 47) head then head
  else rev (lstrip_char 47 (rev head)).

(** [write_last_completed] *)
Definition write_last_completed (page_number : Z) : M unit := fun w =>
  (Returns tt,
   {| requests := requests w; wget_runs := wget_runs w;
      sleeps := sleeps w; classified := classified w;
      submitted := submitted w; files := files w;
      completed := page_number :: completed w |}).

(** [response.raise_for_status()] raises for the codes 400 to 599. *)
Definition raise_for_status (status_code : Z) : bool :=
  in_range 400 599 status_code.

(** ** The program *)

(** What [download_with_wget] returns, told apart by what it prints:
    "File already completed" and "Completed" both return [True]. *)
Inductive download_outcome : Type :=
  | AlreadyComplete
  | Succeeded
  | Failed.

Definition download_returns (o : download_outcome) : bool :=
  match o with
  | AlreadyComplete | Succeeded => true
  | Failed => false
  end.

Section Program.
Context `{PyRuntime} (env : environment).

(** [requests.get(url, timeout=10)] *)
Definition requests_get (url : pystr) : M http_reply := fun w =>
  (Returns (http_get env (length (requests w)) url),
   {| requests := url :: requests w; wget_runs := wget_runs w;
      sleeps := sleeps w; classified := classified w;
      submitted := submitted w; files := files w;
      completed := completed w |}).

(** [subprocess.run(["wget", "-c", "-O", temp_path, url], check=True)]:
    the exit status of this run; the output file is at [temp_path] when
    the run leaves one. *)
Definition run_wget (temp_path url : pystr) : M Z := fun w =>
  let r := wget env (length (wget_runs w)) url in
  (Returns (returncode r),
   {| requests := requests w; wget_runs := url :: wget_runs w;
      sleeps := sleeps w; classified := classified w;
      submitted := submitted w;
      files := if leaves_output r || (returncode r =? 0)%Z
               then {[ temp_path ]} ∪ files w else files w;
      completed := completed w |}).

(** The test of the list comprehension of [fetch_page_links] on one
    [href]; [urlparse] is reached only when the suffix test holds. *)
Definition keeps_link (href : pystr) : outcome bool :=
  if endswith_any (str_lower href) [str ".epub"; str ".pdf"] then
    match urlparse_netloc href with
    | Some netloc => Returns (str_contains PREFERRED_DOMAIN netloc)
    | None => Raises ValueError
    end
  else Returns false.

Fixpoint select_links (hrefs : list pystr) : outcome (list pystr) :=
  match hrefs with
  | [] => Returns []
  | href :: rest =>
      match keeps_link href with
      | Raises e => Raises e
      | Returns keep =>
          match select_links rest with
          | Raises e => Raises e
          | Returns links => Returns (if keep then href :: links else links)
          end
      end
  end.

(** The body of the loop of [fetch_page_links]. *)
Definition fetch_attempt (url : pystr) (attempt : nat)
  : M (control (list pystr)) :=
  let* reply := requests_get url in
  match reply with
  | RequestException => ret Next
  | Response status_code hrefs =>
      if (status_code =? 404)%Z then ret (Return [])
      else if (status_code =? 503)%Z then
        let* _ := sleep SERVICE_UNAVAILABLE_DELAY in ret Next
      else if raise_for_status status_code then ret Next
      else let* links := lift (select_links hrefs) in ret (Return links)
  end.

Definition page_url (page_number : Z) : pystr :=
  BASE_URL ++ str_of_int page_number.

Definition fetch_page_links (page_number : Z) : M (list pystr) :=
  let* r := for_each (seq 0 (SERVICE_UNAVAILABLE_RETRIES + 1))
                     (fetch_attempt (page_url page_number)) in
  match r with
  | Some links => ret links
  | None => ret []
  end.

(** The directory in which [path] lies is there; a path with no
    directory part lies in the working directory. *)
Definition has_directory (path : pystr) : bool :=
  match dirname path with
  | [] => true
  | (_ :: _) as directory => isdir env directory
  end.

(** [shutil.move(temp_path, final_path)] for a [final_path] that is no
    directory, which is the case where [os.path.exists(final_path)] was
    false before [wget] ran: [os.rename], and a copy when that fails.
    Both raise [FileNotFoundError], an [OSError], when there is no file at
    [temp_path] or the directory of [final_path] is not there; the file
    then stays where it is.  A file moved onto itself is left alone. *)
Definition move (temp_path final_path : pystr) : M unit := fun w =>
  if bool_decide (temp_path ∈ files w)
     && (bool_decide (temp_path = final_path) || has_directory final_path)
  then set_files (fun fs => {[ final_path ]} ∪ fs ∖ {[ temp_path ]}) w
  else (Raises OSError, w).

(** The body of the loop of [download_with_wget]. *)
Definition download_attempt (url temp_path final_path : pystr)
    (attempt : nat) : M (control download_outcome) :=
  let* code := run_wget temp_path url in
  if (code =? 0)%Z then
    let* _ := move temp_path final_path in ret (Return Succeeded)
  else if (code =? 8)%Z then
    let* _ := sleep SERVICE_UNAVAILABLE_DELAY in ret Next
  else ret Break.

Definition download_with_wget (url : pystr) : M download_outcome :=
  let filename := friendly_filename url in
  let temp_path := path_join (getcwd env) filename in
  let final_path := path_join DOWNLOAD_DIR filename in
  let* done := path_exists final_path in
  if (done : bool) then ret AlreadyComplete
  else
    let* r := for_each (seq 0 (SERVICE_UNAVAILABLE_RETRIES + 1))
                       (download_attempt url temp_path final_path) in
    match r with
    | Some o => ret o
    | None =>
        let* partial := path_exists temp_path in
        let* _ := (if (partial : bool)
                   then set_files (fun fs => fs ∖ {[ temp_path ]})
                   else ret tt) in
        ret Failed
    end.

(** The call of [is_english_file] on one name, entered in the log. *)
Definition classify (name : pystr) : M bool := fun w =>
  (is_english_file name,
   {| requests := requests w; wget_runs := wget_runs w;
      sleeps := sleeps w; classified := name :: classified w;
      submitted := submitted w; files := files w;
      completed := completed w |}).

(** The first loop of [process_links]: the links that pass the
    classifier, in the order of [unique_links]. *)
Fixpoint filter_links (unique_links : list pystr) : M (list pystr) :=
  match unique_links with
  | [] => ret []
  | link :: rest =>
      let* english := classify (friendly_filename link) in
      let* filtered := filter_links rest in
      ret (if (english : bool) then link :: filtered else filtered)
  end.

(** The task the pool runs for one link, entered in the log. *)
Definition submit (link : pystr) : M unit := fun w =>
  match download_with_wget link
          {| requests := requests w; wget_runs := wget_runs w;
             sleeps := sleeps w; classified := classified w;
             submitted := link :: submitted w; files := files w;
             completed := completed w |} with
  | (_, w') => (Returns tt, w')
  end.

(** [executor.map(download_with_wget, filtered_links)] inside the [with]
    block that waits for the pool: one task per link.  The tasks are run
    here one after the other in the order of the list, which is one of
    the schedules of the pool; their results are not read. *)
Fixpoint executor_map (links : list pystr) : M unit :=
  match links with
  | [] => ret tt
  | link :: rest => let* _ := submit link in executor_map rest
  end.

(** [list(set(links))]: the distinct links, in the order the set gives. *)
Definition unique (links : list pystr) : list pystr :=
  elements (list_to_set links : gset pystr).

Definition process_links (links : list pystr) : M unit :=
  let unique_links := unique links in
  let* filtered_links := filter_links unique_links in
  match filtered_links with
  | [] => ret tt
  | _ :: _ => executor_map filtered_links
  end.

(** The body of the loop of [process_page_with_retries]: both of its
    paths end in [return True]. *)
Definition page_attempt (page_number : Z) (attempt : nat)
  : M (control bool) :=
  let* file_links := fetch_page_links page_number in
  match file_links with
  | [] => ret (Return true)
  | _ :: _ => let* _ := process_links file_links in ret (Return true)
  end.

Definition process_page_with_retries (page_number : Z) : M bool :=
  let* r := for_each (seq 1 MAX_RETRIES) (page_attempt page_number) in
  match r with
  | Some b => ret b
  | None => ret false
  end.

(** The body of the loop of [main]. *)
Definition main_step (page_number : Z) : M (control unit) :=
  let* ok := process_page_with_retries page_number in
  let* _ := (if (ok : bool) then write_last_completed page_number
             else ret tt) in
  let* _ := sleep DELAY_BETWEEN_REQUESTS in
  ret Next.

(** [range(start_page, end_page + 1)] *)
Definition page_range (start_page end_page : Z) : list Z :=
  seqZ start_page (end_page + 1 - start_page).

Definition main (start_page end_page : Z) : M unit :=
  let* _ := for_each (page_range start_page end_page) main_step in
  ret tt.
End Program.

Definition initial_world (existing : gset pystr) : world :=
  {| requests := []; wget_runs := []; sleeps := []; classified := [];
     submitted := []; files := existing; completed := [] |}.

(** ** An instance of the run-time that computes

    [cpython_fragment] follows CPython 3.11 (Unicode 14) on the code
    points U+0000 to U+00FF, U+0391 to U+03C9, U+03F4, U+0400 to U+045F,
    U+2126, U+212A, U+212B and U+4E00 to U+9FFF.  Any other code point is
    left as it is by [fragment_lower] and is no word character for
    [fragment_is_word]; the capital sigma U+03A3 is always lowered to
    U+03C3.  The examples below stay inside these code points. *)

(** Ranges of upper case letters with the distance to their lower case. *)
Definition LOWER_RULES : list (Z * Z * Z) :=
  [ (0x0041, 0x005A, 32); (0x00C0, 0x00D6, 32); (0x00D8, 0x00DE, 32);
    (0x0391, 0x03A1, 32); (0x03A3, 0x03AB, 32); (0x03F4, 0x03F4, -60);
    (0x0400, 0x040F, 80); (0x0410, 0x042F, 32);
    (0x2126, 0x2126, -7517); (0x212A, 0x212A, -8383);
    (0x212B, 0x212B, -8262) ]%Z.

Definition lower_code_point (c : Z) : Z :=
  match List.find (fun r => in_range (fst (fst r)) (snd (fst r)) c) LOWER_RULES with
  | Some r => (c + snd r)%Z
  | None => c
  end.

Definition fragment_lower (s : pystr) : pystr := map lower_code_point s.

Definition WORD_RANGES : list (Z * Z) :=
  [ (0x0030, 0x0039); (0x0041, 0x005A); (0x005F, 0x005F); (0x0061, 0x007A);
    (0x00AA, 0x00AA); (0x00B2, 0x00B3); (0x00B5, 0x00B5); (0x00B9, 0x00BA);
    (0x00BC, 0x00BE); (0x00C0, 0x00D6); (0x00D8, 0x00F6); (0x00F8, 0x00FF);
    (0x0391, 0x03A1); (0x03A3, 0x03C9); (0x03F4, 0x03F4); (0x0400, 0x045F);
    (0x2126, 0x2126); (0x212A, 0x212B); (0x4E00, 0x9FFF) ]%Z.

Definition fragment_is_word (c : Z) : bool := class_matches WORD_RANGES c.

(** [url.lstrip(_WHATWG_C0_CONTROL_OR_SPACE)] and the removal of tab,
    carriage return and line feed, with which [urlsplit] begins. *)
Fixpoint lstrip_c0_space (url : pystr) : pystr :=
  match url with
  | c :: rest => if in_range 0 32 c then lstrip_c0_space rest else url
  | [] => []
  end.

Definition remove_unsafe (url : pystr) : pystr :=
  filter (fun c => c ≠ 9%Z ∧ c ≠ 10%Z ∧ c ≠ 13%Z) url.

Definition is_ascii_alpha (c : Z) : bool := in_range 65 90 c || in_range 97 122 c.

(** [c in scheme_chars] *)
Definition is_scheme_char (c : Z) : bool :=
  is_ascii_alpha c || in_range 48 57 c
  || (c =? 43)%Z || (c =? 45)%Z || (c =? 46)%Z.

(** The text before the first [stop] character and the text from it on. *)
Fixpoint break_at (stop : Z -> bool) (s : pystr) : pystr * pystr :=
  match s with
  | [] => ([], [])
  | c :: rest =>
      if stop c then ([], s)
      else let (before, after) := break_at stop rest in (c :: before, after)
  end.

(** The url once [urlsplit] has taken the scheme off, if there is one. *)
Definition strip_scheme (url : pystr) : pystr :=
  match break_at (Z.eqb 58) url with
  | ((c :: _) as scheme, _ :: rest) =>
      if is_ascii_alpha c && forallb is_scheme_char scheme then rest else url
  | _ => url
  end.

Definition is_netloc_end (c : Z) : bool :=
  (c =? 47)%Z || (c =? 63)%Z || (c =? 35)%Z.

(** The [netloc] of [urlsplit]; [None] for the unmatched bracket at which
    it raises [ValueError].  A netloc outside ASCII or with both brackets
    goes through further checks of the library, which are left out. *)
Definition fragment_netloc (href : pystr) : option pystr :=
  match strip_scheme (remove_unsafe (lstrip_c0_space href)) with
  | 47%Z :: 47%Z :: rest =>
      let netloc := fst (break_at is_netloc_end rest) in
      if xorb (existsb (Z.eqb 91) netloc) (existsb (Z.eqb 93) netloc)
      then None else Some netloc
  | _ => Some []
  end.

Definition cpython_fragment : PyRuntime :=
  {| str_lower := fragment_lower;
     is_word := fragment_is_word;
     urlparse_netloc := fragment_netloc |}.

(** The code points an input of the examples is written with. *)
Definition OHM_SIGN : Z := 0x2126.
Definition RESERVED_03A2 : Z := 0x03A2.

(** A run-time lowers text without taking it out of the scripts of
    [NON_ENGLISH_PATTERNS]: the ideographs have no case, and the capital
    Greek and Cyrillic letters of the patterns are lowered to the small
    ones of the same patterns. *)
Definition lower_keeps_script `{PyRuntime} : Prop :=
  forall s : pystr, has_script s = true -> has_script (str_lower s) = true.

(** ** Replies, as the loops see them *)

(** The replies after which the loop of [fetch_page_links] goes on to its
    next attempt: an exception, a 503, or a status [raise_for_status]
    raises for (404 apart, which returns at once). *)
Definition retried (reply : http_reply) : bool :=
  match reply with
  | RequestException => true
  | Response status_code _ =>
      negb (status_code =? 404)%Z &&
      ((status_code =? 503)%Z || raise_for_status status_code)
  end.

(** The replies whose text is parsed, with the [href] values found. *)
Definition served (reply : http_reply) : option (list pystr) :=
  match reply with
  | RequestException => None
  | Response status_code hrefs =>
      if (status_code =? 404)%Z || (status_code =? 503)%Z
         || raise_for_status status_code
      then None else Some hrefs
  end.

(** The links of a page that pass the classifier. *)
Definition accepted `{PyRuntime} (link : pystr) : bool :=
  match is_english_file (friendly_filename link) with
  | Returns true => true
  | _ => false
  end.

(** The paths of [download_with_wget] for one url. *)
Definition temp_path_of (env : environment) (url : pystr) : pystr :=
  path_join (getcwd env) (friendly_filename url).

Definition final_path_of (url : pystr) : pystr :=
  path_join DOWNLOAD_DIR (friendly_filename url).

(** [shutil.move] can put the file of [url] at its final path: the two
    paths are the same, or the directory of the final path is there. *)
Definition target_ready (env : environment) (url : pystr) : bool :=
  bool_decide (temp_path_of env url = final_path_of url)
  || has_directory env (final_path_of url).

(** ** Surroundings for the examples *)

(** Every request gets the same reply and every run of [wget] ends the
    same way; of the directories only [DOWNLOAD_DIR] is said to be there. *)
Definition steady (reply : http_reply) (result : wget_result) : environment :=
  {| http_get := fun _ _ => reply;
     wget := fun _ _ => result;
     getcwd := str "/srv/libscrape";
     isdir := fun path => bool_decide (path = DOWNLOAD_DIR) |}.

Definition wget_ok : wget_result := {| returncode := 0; leaves_output := true |}.

(** Exit status 4 of [wget]: network failure. *)
Definition wget_network_failure : wget_result :=
  {| returncode := 4; leaves_output := true |}.

(** A site whose downloads break off. *)
Definition flaky : environment := steady RequestException wget_network_failure.

(** A site that never answers. *)
Definition unreachable : environment := steady RequestException wget_ok.

(** A site that has no such page. *)
Definition not_found : environment := steady (Response 404 []) wget_ok.

(** A link on a host that has the preferred domain inside its name, and a
    link whose path is [/view] and whose query ends in [.pdf]. *)
Definition LOOKALIKE_HREF : pystr :=
  str "https://download.example.lol.evil.net/a.pdf".

Definition QUERY_HREF : pystr :=
  str "https://download.example.lol/view?file=a.pdf".

Definition lookalike_site : environment :=
  steady (Response 200 [LOOKALIKE_HREF; QUERY_HREF]) wget_ok.

Definition BOOK_URL : pystr :=
  str "https://download.example.lol/books/foo_bar.pdf".

Definition LE_LIVRE_URL : pystr :=
  str "https://download.example.lol/books/le%20livre.pdf".

(** ** Checkpoint store *)

(** The code points for which [str.isspace] holds: [str.strip()] takes
    them off both ends. *)
Definition SPACE_RANGES : list (Z * Z) :=
  [ (0x0009, 0x000D); (0x001C, 0x0020); (0x0085, 0x0085); (0x00A0, 0x00A0);
    (0x1680, 0x1680); (0x2000, 0x200A); (0x2028, 0x2029); (0x202F, 0x202F);
    (0x205F, 0x205F); (0x3000, 0x3000) ]%Z.

Definition is_space (c : Z) : bool := class_matches SPACE_RANGES c.

Fixpoint lstrip (s : pystr) : pystr :=
  match s with
  | c :: rest => if is_space c then lstrip rest else s
  | [] => []
  end.

(** [s.strip()] *)
Definition strip (s : pystr) : pystr := rev (lstrip (rev (lstrip s))).

(** The white space [int] itself skips at both ends of its argument: the
    ASCII white space of C and, outside ASCII, the code points of
    [str.isspace]; not U+001C to U+001F. *)
Definition is_int_space (c : Z) : bool :=
  in_range 0x09 0x0D c || (c =? 0x20)%Z || (is_space c && (0x80 <=? c)%Z).

Fixpoint int_lstrip (s : pystr) : pystr :=
  match s with
  | c :: rest => if is_int_space c then int_lstrip rest else s
  | [] => []
  end.

(** The decimal digits of Unicode 14 (category Nd), in runs of ten that
    go from the digit zero to the digit nine of a script. *)
Definition DECIMAL_DIGIT_RANGES : list (Z * Z) :=
  [
    (0x0030, 0x0039); (0x0660, 0x0669); (0x06F0, 0x06F9); (0x07C0, 0x07C9);
    (0x0966, 0x096F); (0x09E6, 0x09EF); (0x0A66, 0x0A6F); (0x0AE6, 0x0AEF);
    (0x0B66, 0x0B6F); (0x0BE6, 0x0BEF); (0x0C66, 0x0C6F); (0x0CE6, 0x0CEF);
    (0x0D66, 0x0D6F); (0x0DE6, 0x0DEF); (0x0E50, 0x0E59); (0x0ED0, 0x0ED9);
    (0x0F20, 0x0F29); (0x1040, 0x1049); (0x1090, 0x1099); (0x17E0, 0x17E9);
    (0x1810, 0x1819); (0x1946, 0x194F); (0x19D0, 0x19D9); (0x1A80, 0x1A89);
    (0x1A90, 0x1A99); (0x1B50, 0x1B59); (0x1BB0, 0x1BB9); (0x1C40, 0x1C49);
    (0x1C50, 0x1C59); (0xA620, 0xA629); (0xA8D0, 0xA8D9); (0xA900, 0xA909);
    (0xA9D0, 0xA9D9); (0xA9F0, 0xA9F9); (0xAA50, 0xAA59); (0xABF0, 0xABF9);
    (0xFF10, 0xFF19); (0x104A0, 0x104A9); (0x10D30, 0x10D39); (0x11066, 0x1106F);
    (0x110F0, 0x110F9); (0x11136, 0x1113F); (0x111D0, 0x111D9); (0x112F0, 0x112F9);
    (0x11450, 0x11459); (0x114D0, 0x114D9); (0x11650, 0x11659); (0x116C0, 0x116C9);
    (0x11730, 0x11739); (0x118E0, 0x118E9); (0x11950, 0x11959); (0x11C50, 0x11C59);
    (0x11D50, 0x11D59); (0x11DA0, 0x11DA9); (0x16A60, 0x16A69); (0x16AC0, 0x16AC9);
    (0x16B50, 0x16B59); (0x1D7CE, 0x1D7FF); (0x1E140, 0x1E149); (0x1E2F0, 0x1E2F9);
    (0x1E950, 0x1E959); (0x1FBF0, 0x1FBF9) ]%Z.

(** The value of a decimal digit; [None] for any other code point. *)
Definition digit_value (c : Z) : option Z :=
  match List.find (fun r => in_range (fst r) (snd r) c) DECIMAL_DIGIT_RANGES with
  | Some r => Some ((c - fst r) mod 10)%Z
  | None => None
  end.

(** [sys.int_info.default_max_str_digits] of CPython 3.11: [int] refuses
    a text with more digits. *)
Definition MAX_STR_DIGITS : nat := 4300.

(** The digits of an integer literal after its first digit: digits, with
    single underscores between them.  [value] and [count] are the value
    and the number of the digits read so far. *)
Fixpoint int_digits (s : pystr) (value : Z) (count : nat) : option (Z * nat) :=
  match s with
  | [] => Some (value, count)
  | c :: rest =>
      if (c =? 95)%Z then
        match rest with
        | d :: rest' =>
            match digit_value d with
            | Some v => int_digits rest' (10 * value + v)%Z (S count)
            | None => None
            end
        | [] => None
        end
      else
        match digit_value c with
        | Some v => int_digits rest (10 * value + v)%Z (S count)
        | None => None
        end
  end.

Definition int_unsigned (s : pystr) : option Z :=
  match s with
  | d :: rest =>
      match digit_value d with
      | Some v =>
          match int_digits rest v 1 with
          | Some (value, count) =>
              if count <=? MAX_STR_DIGITS then Some value else None
          | None => None
          end
      | None => None
      end
  | [] => None
  end.

(** [int(s)] in base ten; [None] when it raises [ValueError]. *)
Definition py_int (s : pystr) : option Z :=
  let text := rev (int_lstrip (rev (int_lstrip s))) in
  match text with
  | sign :: digits =>
      if (sign =? 43)%Z then int_unsigned digits
      else if (sign =? 45)%Z then option_map Z.opp (int_unsigned digits)
      else int_unsigned text
  | [] => None
  end.

(** [COMPLETED.TXT] as [read_last_completed] finds it: not there, there
    with bytes that do not decode ([f.read()] raises [UnicodeDecodeError],
    a [ValueError]), or there with a text. *)
Inductive checkpoint_file : Type :=
  | Missing
  | Undecodable
  | Text (content : pystr).

(** [read_last_completed] *)
Definition read_last_completed (file : checkpoint_file) : Z :=
  match file with
  | Text content =>
      match py_int (strip content) with
      | Some page_number => page_number
      | None => 1%Z
      end
  | Undecodable => 1%Z
  | Missing => 1%Z
  end.

(** [COMPLETED.TXT] after the program has run from a world with an empty
    log of checkpoints: what the last [write_last_completed] wrote, or
    the file as it was before when nothing was written. *)
Definition checkpoint_after (before : checkpoint_file) (w : world)
  : checkpoint_file :=
  match completed w with
  | page_number :: _ => Text (str_of_int page_number)
  | [] => before
  end.

(** [args.start if args.start else read_last_completed()]: [None] when
    [--start] is not given. *)
Definition start_page_of (start : option Z) (file : checkpoint_file) : Z :=
  match start with
  | Some n => if (n =? 0)%Z then read_last_completed file else n
  | None => read_last_completed file
  end.

(** ** More replies and surroundings *)

(** A reply with status 503. *)
Definition is_busy (reply : http_reply) : bool :=
  match reply with
  | Response status_code _ => (status_code =? 503)%Z
  | RequestException => false
  end.

(** Every [href] of every page the site serves goes through [urlparse]
    without an error. *)
Definition hrefs_parse `{PyRuntime} (env : environment) : Prop :=
  forall n url status_code hrefs href,
    http_get env n url = Response status_code hrefs ->
    In href hrefs -> urlparse_netloc href <> None.

(** Exit status 8 of [wget]: the server issued an error response. *)
Definition wget_busy : wget_result := {| returncode := 8; leaves_output := true |}.



(** A site that answers 503 to the first request and 404 to the next. *)
Definition busy_then_not_found : environment :=
  {| http_get := fun n _ => if n <? 1 then Response 503 [] else Response 404 [];
     wget := fun _ _ => wget_ok;
     getcwd := str "/srv/libscrape";
     isdir := fun path => bool_decide (path = DOWNLOAD_DIR) |}.

(** A server that is busy for every run of [wget]. *)
Definition always_busy : environment := steady RequestException wget_busy.

(** A link with an opening bracket in its netloc and no closing one. *)
Definition BRACKET_HREF : pystr := str "http://[download.example.lol/a.pdf".

Definition bracket_site : environment :=
  steady (Response 200 [BRACKET_HREF]) wget_ok.

(** A link whose last segment decodes to [/tmp/a.pdf]. *)
Definition ABSOLUTE_URL : pystr :=
  str "https://download.example.lol/%2Ftmp%2Fa.pdf".

(** A link whose last segment decodes to [downloads/a.pdf]. *)
Definition NESTED_URL : pystr :=
  str "https://download.example.lol/downloads%2Fa.pdf".

(** The name [matemática_avanzada.pdf]. *)
Definition UNDERSCORE_NAME : pystr :=
  str "matem" ++ [0xE1%Z] ++ str "tica_avanzada.pdf".

(** * Properties *)

(** ** Scripts and patterns *)

Lemma in_script_bounds (c : Z) :
  in_script c = true -> (0x0391 <= c <= 0x9FA5)%Z.
Proof.
  unfold in_script, NON_ENGLISH_PATTERNS, class_matches, in_range; simpl.
  rewrite !orb_false_r, !orb_true_iff, !andb_true_iff, !Z.leb_le. lia.
Qed.

Lemma has_script_app (s t : pystr) :
  has_script (s ++ t) = has_script s || has_script t.
Proof. unfold has_script. apply existsb_app. Qed.

Lemma has_script_cons (c : Z) (s : pystr) :
  has_script (c :: s) = in_script c || has_script s.
Proof. reflexivity. Qed.

Lemma unquote_runs_keeps_script (s run : pystr) :
  has_script s = true -> has_script (unquote_runs run s) = true.
Proof.
  revert run. induction s as [|c t IH]; intros run Hs; [discriminate|].
  rewrite has_script_cons in Hs. simpl.
  destruct (c <? 128)%Z eqn:Hc.
  - apply IH. destruct (in_script c) eqn:Hin; [|exact Hs].
    apply in_script_bounds in Hin. apply Z.ltb_lt in Hc. lia.
  - rewrite has_script_app, has_script_cons.
    apply orb_true_iff in Hs as [->|Ht].
    + now rewrite orb_true_r.
    + rewrite (IH [] Ht). now rewrite !orb_true_r.
Qed.

Lemma unquote_keeps_script (s : pystr) :
  has_script s = true -> has_script (unquote s) = true.
Proof.
  intros Hs. unfold unquote.
  destruct (existsb (Z.eqb 37) s); [now apply unquote_runs_keeps_script|exact Hs].
Qed.

(** The loop over the patterns finds one exactly when some code point of
    the name is in a script range. *)
Lemma first_pattern_script (s : pystr) :
  has_script s = true <->
  exists pattern, first_pattern NON_ENGLISH_PATTERNS s = Some pattern.
Proof.
  unfold has_script, first_pattern. split.
  - intros Hs. apply existsb_exists in Hs as (c & Hc & Hcls).
    apply existsb_exists in Hcls as (cls & Hin & Hm).
    destruct (List.find _ _) as [p|] eqn:Hf; [now exists p|].
    eapply find_none in Hf; [|exact Hin].
    assert (re_search cls s = true) as Hr
      by (apply existsb_exists; now exists c).
    simpl in Hf. congruence.
  - intros (p & Hf). apply find_some in Hf as (Hin & Hr).
    apply existsb_exists in Hr as (c & Hc & Hm).
    apply existsb_exists. exists c. split; [exact Hc|].
    apply existsb_exists. now exists p.
Qed.

Lemma first_pattern_none (s : pystr) :
  has_script s = false <-> first_pattern NON_ENGLISH_PATTERNS s = None.
Proof.
  split; intros Hs.
  - destruct (first_pattern _ s) as [p|] eqn:Hf; [|reflexivity].
    assert (has_script s = true) by (apply first_pattern_script; now exists p).
    congruence.
  - destruct (has_script s) eqn:Hh; [|reflexivity].
    apply first_pattern_script in Hh as (p & Hp). congruence.
Qed.

Lemma first_pattern_member (s : pystr) (pattern : list (Z * Z)) :
  first_pattern NON_ENGLISH_PATTERNS s = Some pattern ->
  In pattern NON_ENGLISH_PATTERNS /\ re_search pattern s = true.
Proof. intros Hf. now apply find_some in Hf. Qed.

(** ** Classifier *)

Section ClassifierFacts.
Context `{PyRuntime}.

Lemma english_word_count_le (words : list pystr) :
  english_word_count words <= length words.
Proof. unfold english_word_count. apply length_filter. Qed.

(** The right operand of the [or] is reached only with a word in hand,
    so the division never raises. *)
Lemma ratio_test_returns (words : list pystr) :
  exists b,
    or_else (english_word_count words =? 0)
            (ratio_below_0_4 (english_word_count words) (length words))
    = Returns b.
Proof.
  pose proof (english_word_count_le words) as Hle.
  destruct (english_word_count words) as [|n] eqn:Hn; simpl.
  - now exists true.
  - destruct (length words) as [|m]; [lia|]. simpl. eauto.
Qed.

Lemma branch_of_script (filename : pystr) :
  has_script (decoded_name filename) = true ->
  exists pattern,
    In pattern NON_ENGLISH_PATTERNS /\
    is_english_file_branch filename = Returns (NonEnglishCharacters pattern).
Proof.
  intros Hs. apply first_pattern_script in Hs as (p & Hp).
  exists p. split; [now apply first_pattern_member in Hp|].
  unfold is_english_file_branch. now rewrite Hp.
Qed.

Lemma branch_of_foreign (filename : pystr) (w : pystr) (rest : list pystr) :
  has_script (decoded_name filename) = false ->
  found_foreign_words (findall_words (decoded_name filename)) = w :: rest ->
  is_english_file_branch filename = Returns (ForeignWords (w :: rest)).
Proof.
  intros Hs Hf. apply first_pattern_none in Hs.
  unfold is_english_file_branch. rewrite Hs. cbv zeta. rewrite Hf.
  reflexivity.
Qed.

Lemma branch_of_clean (filename : pystr) :
  has_script (decoded_name filename) = false ->
  found_foreign_words (findall_words (decoded_name filename)) = [] ->
  is_english_file_branch filename = Returns Uncertain \/
  is_english_file_branch filename = Returns LikelyEnglish.
Proof.
  intros Hs Hf. apply first_pattern_none in Hs.
  unfold is_english_file_branch. rewrite Hs. cbv zeta. rewrite Hf.
  destruct (ratio_test_returns (findall_words (decoded_name filename)))
    as [[|] ->]; auto.
Qed.

Lemma found_foreign_words_nil (words : list pystr) :
  found_foreign_words words = [] <->
  forall w, In w words -> ~ In w FOREIGN_STOPWORDS.
Proof.
  unfold found_foreign_words. split.
  - intros Hnil w Hw Hstop.
    assert (w ∈ filter (fun w => w ∈ FOREIGN_STOPWORDS) words) as Hin
      by (apply list_elem_of_filter; split; now apply list_elem_of_In).
    rewrite Hnil in Hin. now apply not_elem_of_nil in Hin.
  - intros Hall.
    destruct (filter _ words) as [|w rest] eqn:Hf; [reflexivity|].
    assert (w ∈ filter (fun w => w ∈ FOREIGN_STOPWORDS) words) as Hin
      by (rewrite Hf; left).
    apply list_elem_of_filter in Hin as [Hstop Hw].
    exfalso. apply (Hall w); now apply list_elem_of_In.
Qed.

(** The classifier returns on every name: no path of it raises. *)
Lemma is_english_file_returns (filename : pystr) :
  exists b, is_english_file filename = Returns b.
Proof.
  unfold is_english_file.
  destruct (has_script (decoded_name filename)) eqn:Hs.
  - destruct (branch_of_script filename Hs) as (p & _ & ->). eauto.
  - destruct (found_foreign_words (findall_words (decoded_name filename)))
      as [|w rest] eqn:Hf.
    + destruct (branch_of_clean filename Hs Hf) as [-> | ->]; eauto.
    + rewrite (branch_of_foreign filename w rest Hs Hf). eauto.
Qed.

(** C4. A file name with a code point in the ranges of the ideographs,
    the Greek letters or the Cyrillic letters is rejected, whatever its
    tokens are: the classifier leaves by the branch of the patterns,
    which comes before the tokens are taken and the stopwords looked up. *)
Theorem script_name_rejected (filename : pystr) :
  lower_keeps_script ->
  has_script filename = true ->
  is_english_file filename = Returns false /\
  exists pattern,
    In pattern NON_ENGLISH_PATTERNS /\
    is_english_file_branch filename = Returns (NonEnglishCharacters pattern).
Proof.
  intros Hlower Hs.
  assert (has_script (decoded_name filename) = true) as Hd
    by (apply Hlower, unquote_keeps_script, Hs).
  destruct (branch_of_script filename Hd) as (p & Hin & Hb).
  split; [|now exists p].
  unfold is_english_file. now rewrite Hb.
Qed.


(** C3, amended.  A file name whose decoded and lowered form has no code
    point in the script ranges and no token in the stopword list is
    accepted, by the branch of the uncertain names or by the default: the
    count of English words and its ratio never reject. *)
Theorem clean_name_accepted (filename : pystr) :
  has_script (decoded_name filename) = false ->
  (forall w, In w (findall_words (decoded_name filename)) ->
             ~ In w FOREIGN_STOPWORDS) ->
  is_english_file filename = Returns true /\
  (is_english_file_branch filename = Returns Uncertain \/
   is_english_file_branch filename = Returns LikelyEnglish).
Proof.
  intros Hs Hall. apply found_foreign_words_nil in Hall.
  pose proof (branch_of_clean filename Hs Hall) as Hb.
  split; [|exact Hb].
  unfold is_english_file. now destruct Hb as [-> | ->].
Qed.

(** C10, amended.  The classifier returns on every file name, and the
    division is reached only with a token count that is not zero; a name
    whose decoded and lowered form has no token and no code point of the
    script ranges is accepted as uncertain, by the left operand of the
    [or] alone. *)
Theorem no_token_name_accepted (filename : pystr) :
  (exists b, is_english_file filename = Returns b) /\
  (forall words : list pystr,
     (english_word_count words =? 0) = false -> length words <> 0) /\
  (findall_words (decoded_name filename) = [] ->
   has_script (decoded_name filename) = false ->
   is_english_file_branch filename = Returns Uncertain /\
   forall right_operand,
     or_else (english_word_count (findall_words (decoded_name filename)) =? 0)
             right_operand = Returns true).
Proof.
  split; [apply is_english_file_returns|]. split.
  - intros words Hc Hlen. pose proof (english_word_count_le words) as Hle.
    apply Nat.eqb_neq in Hc. lia.
  - intros Hw Hs. apply first_pattern_none in Hs.
    unfold is_english_file_branch. rewrite Hs. cbv zeta. rewrite Hw.
    now split.
Qed.
End ClassifierFacts.

(** ** The classifier on the computing run-time *)

Ltac script_bounds :=
  unfold in_script, NON_ENGLISH_PATTERNS, class_matches, in_range; simpl;
  rewrite ?orb_false_r, ?orb_true_iff, ?andb_true_iff, ?Z.leb_le.

Lemma in_range_true (lo hi c : Z) :
  (lo <= c <= hi)%Z -> in_range lo hi c = true.
Proof.
  intros Hc. unfold in_range. apply andb_true_iff. rewrite !Z.leb_le. lia.
Qed.

Lemma in_range_false (lo hi c : Z) :
  (c < lo \/ hi < c)%Z -> in_range lo hi c = false.
Proof.
  intros Hc. unfold in_range. apply andb_false_iff. rewrite !Z.leb_gt. lia.
Qed.

(** Walks down the rules of [LOWER_RULES] for a code point whose bounds
    are among the hypotheses. *)
Ltac walk_rules c :=
  unfold lower_code_point, LOWER_RULES; cbn [List.find fst snd];
  repeat first
    [ rewrite (in_range_false _ _ c) by lia
    | rewrite (in_range_true _ _ c) by lia ].

Lemma lower_code_point_in_script (c : Z) :
  in_script c = true -> in_script (lower_code_point c) = true.
Proof.
  intros Hc.
  assert ((0x4E00 <= c <= 0x9FA5) \/ (0x03B1 <= c <= 0x03C9) \/
          (0x0391 <= c <= 0x03A1) \/ c = 0x03A2 \/
          (0x03A3 <= c <= 0x03A9) \/ (0x0430 <= c <= 0x044F) \/
          (0x0410 <= c <= 0x042F))%Z as Hcases
    by (revert Hc; script_bounds; lia).
  destruct Hcases as [H|[H|[H|[H|[H|[H|H]]]]]];
    walk_rules c; script_bounds; lia.
Qed.

Lemma fragment_lower_keeps_script : @lower_keeps_script cpython_fragment.
Proof.
  intros s. simpl. unfold fragment_lower, has_script.
  induction s as [|c s IH]; [discriminate|]. simpl.
  intros Hs. apply orb_true_iff in Hs as [Hc|Hs].
  - now rewrite (lower_code_point_in_script c Hc).
  - rewrite (IH Hs). apply orb_true_r.
Qed.

Lemma no_stopword_among (words : list pystr) :
  forallb (fun w => negb (bool_decide (w ∈ FOREIGN_STOPWORDS))) words = true ->
  forall w, In w words -> ~ In w FOREIGN_STOPWORDS.
Proof.
  intros Hall w Hw Hstop.
  rewrite forallb_forall in Hall. specialize (Hall w Hw).
  apply negb_true_iff, bool_decide_eq_false in Hall.
  now apply Hall, list_elem_of_In.
Qed.

(** A name with an ideograph between a stopword and an English word. *)
Lemma script_name_rejected_witness :
  has_script (str "le " ++ [0x4E00%Z] ++ str " book.pdf") = true /\
  @is_english_file cpython_fragment
     (str "le " ++ [0x4E00%Z] ++ str " book.pdf") = Returns false.
Proof.
  split; [reflexivity|].
  apply (@script_name_rejected cpython_fragment
           (str "le " ++ [0x4E00%Z] ++ str " book.pdf")
           fragment_lower_keeps_script).
  reflexivity.
Defined.


(** A name with no English word at all. *)
Lemma clean_name_accepted_witness :
  @has_script (@decoded_name cpython_fragment (str "foo_bar.pdf")) = false /\
  @is_english_file cpython_fragment (str "foo_bar.pdf") = Returns true.
Proof.
  split; [reflexivity|].
  apply (@clean_name_accepted cpython_fragment (str "foo_bar.pdf")).
  - reflexivity.
  - apply no_stopword_among. vm_compute. reflexivity.
Defined.

(** A name of punctuation only. *)
Lemma no_token_name_accepted_witness :
  @findall_words cpython_fragment
     (@decoded_name cpython_fragment (str "...")) = [] /\
  @is_english_file_branch cpython_fragment (str "...") = Returns Uncertain.
Proof.
  split; [reflexivity|].
  apply (@no_token_name_accepted cpython_fragment (str "...")); reflexivity.
Defined.

(** C3 as it is written fails on the ohm sign U+2126: it is outside the
    script ranges and the name has no stopword, before and after lowering,
    but [str.lower] turns it into the small omega U+03C9, which the Greek
    pattern finds in the lowered name. *)
Lemma ohm_sign_name_rejected :
  ~ (forall filename : pystr,
       has_script filename = false ->
       (forall w, In w (@findall_words cpython_fragment filename) ->
                  ~ In w FOREIGN_STOPWORDS) ->
       (forall w, In w (@findall_words cpython_fragment
                          (@decoded_name cpython_fragment filename)) ->
                  ~ In w FOREIGN_STOPWORDS) ->
       @is_english_file cpython_fragment filename = Returns true).
Proof.
  intros Hclaim.
  specialize (Hclaim (OHM_SIGN :: str ".pdf")).
  assert (@is_english_file cpython_fragment (OHM_SIGN :: str ".pdf")
          = Returns false) as Hcode by reflexivity.
  rewrite Hclaim in Hcode; [discriminate|reflexivity| |];
    apply no_stopword_among; vm_compute; reflexivity.
Qed.

(** C10 as it is written fails on the reserved code point U+03A2: it is no
    word character, so the name has no token, and it lies inside the range
    of the Greek pattern, so the name is rejected. *)
Lemma reserved_code_point_rejected :
  ~ (forall filename : pystr,
       @findall_words cpython_fragment
          (@decoded_name cpython_fragment filename) = [] ->
       @is_english_file cpython_fragment filename = Returns true).
Proof.
  intros Hclaim.
  specialize (Hclaim [RESERVED_03A2] eq_refl).
  vm_compute in Hclaim. discriminate.
Qed.

(** The classifier decodes the name it is given once more: in a name that
    has been decoded already, [%65] becomes [e], and the tokens are those
    of the name so decoded. *)
Lemma escaped_name_decoded_again :
  @decoded_name cpython_fragment (str "l%65 livre.pdf") = str "le livre.pdf" /\
  @is_english_file cpython_fragment (str "l%65 livre.pdf") = Returns false.
Proof. split; reflexivity. Qed.

(** The address of a page is the base followed by the number in decimal. *)
Lemma page_url_42 : page_url 42 = str "https://example.org/d/42".
Proof. reflexivity. Qed.

(** ** Loops *)

Section LoopFacts.
Context {I A : Type} (body : I -> M (control A)).

Lemma for_each_next (item : I) (rest : list I) (w w1 : world) :
  body item w = (Returns Next, w1) ->
  for_each (item :: rest) body w = for_each rest body w1.
Proof. intros Hb. cbn [for_each]. unfold bind. now rewrite Hb. Qed.

Lemma for_each_break (item : I) (rest : list I) (w w1 : world) :
  body item w = (Returns Break, w1) ->
  for_each (item :: rest) body w = (Returns None, w1).
Proof. intros Hb. cbn [for_each]. unfold bind. now rewrite Hb. Qed.

Lemma for_each_return (item : I) (rest : list I) (w w1 : world) (a : A) :
  body item w = (Returns (Return a), w1) ->
  for_each (item :: rest) body w = (Returns (Some a), w1).
Proof. intros Hb. cbn [for_each]. unfold bind. now rewrite Hb. Qed.

Lemma for_each_raise (item : I) (rest : list I) (w w1 : world) (e : exn) :
  body item w = (Raises e, w1) ->
  for_each (item :: rest) body w = (Raises e, w1).
Proof. intros Hb. cbn [for_each]. unfold bind. now rewrite Hb. Qed.
End LoopFacts.

(** ** Page fetcher and crawl driver *)

Section FetchFacts.
Context `{PyRuntime} (env : environment).

Lemma keeps_link_true (href : pystr) :
  keeps_link href = Returns true <->
  endswith_any (str_lower href) [str ".epub"; str ".pdf"] = true /\
  exists netloc,
    urlparse_netloc href = Some netloc /\
    str_contains PREFERRED_DOMAIN netloc = true.
Proof.
  unfold keeps_link.
  destruct (endswith_any _ _); [|split; [discriminate|intros [? _]; discriminate]].
  destruct (urlparse_netloc href) as [netloc|].
  - split.
    + intros Hk. injection Hk as Hk. split; [reflexivity|]. now exists netloc.
    + intros [_ (n & Hn & Hc)]. injection Hn as <-. now rewrite Hc.
  - split; [discriminate|]. intros [_ (n & Hn & _)]. discriminate.
Qed.

(** The links the comprehension keeps are the [href] values that pass
    its test, when no [href] makes [urlparse] raise. *)
Lemma select_links_member (hrefs links : list pystr) :
  select_links hrefs = Returns links ->
  forall href,
    In href links <-> In href hrefs /\ keeps_link href = Returns true.
Proof.
  revert links. induction hrefs as [|h rest IH]; intros links Hsel href.
  - injection Hsel as <-. simpl. tauto.
  - simpl in Hsel.
    destruct (keeps_link h) as [keep|e] eqn:Hk; [|discriminate].
    destruct (select_links rest) as [ls|e] eqn:Hr; [|discriminate].
    injection Hsel as <-. specialize (IH ls eq_refl href).
    destruct keep; simpl; rewrite IH; split.
    + intros [<-|[Hin Hkeep]]; auto.
    + intros [[<-|Hin] Hkeep]; auto.
    + intros [Hin Hkeep]; auto.
    + intros [[<-|Hin] Hkeep]; [congruence|auto].
Qed.

(** A reply of the retried kind sends the loop to its next attempt,
    with one more request made. *)
Lemma fetch_attempt_retried (url : pystr) (attempt : nat) (w : world) :
  retried (http_get env (length (requests w)) url) = true ->
  fst (fetch_attempt env url attempt w) = Returns Next /\
  requests (snd (fetch_attempt env url attempt w)) = url :: requests w /\
  completed (snd (fetch_attempt env url attempt w)) = completed w.
Proof.
  unfold fetch_attempt, bind, requests_get, retried. simpl.
  destruct (http_get env (length (requests w)) url) as [code hrefs|];
    [|intros _; now simpl].
  destruct (code =? 404)%Z; [discriminate|]. simpl.
  destruct (code =? 503)%Z; [intros _; now simpl|]. simpl.
  intros ->. now simpl.
Qed.

(** A reply of the served kind ends the loop with the links kept. *)
Lemma fetch_attempt_served (url : pystr) (attempt : nat) (w : world)
    (hrefs : list pystr) :
  served (http_get env (length (requests w)) url) = Some hrefs ->
  fst (fetch_attempt env url attempt w)
  = match select_links hrefs with
    | Returns links => Returns (Return links)
    | Raises e => Raises e
    end.
Proof.
  unfold fetch_attempt, bind, requests_get, served, lift, ret. simpl.
  destruct (http_get env (length (requests w)) url) as [code hs|];
    [|discriminate].
  destruct (code =? 404)%Z; [discriminate|].
  destruct (code =? 503)%Z; [discriminate|].
  destruct (raise_for_status code); [discriminate|]. simpl.
  intros Hs. injection Hs as ->. now destruct (select_links hrefs).
Qed.

(** The loop over the attempts: after [k] retried replies, a served
    reply gives the result of the function. *)
Lemma fetch_loop_served (url : pystr) (hrefs : list pystr)
    (attempts : list nat) :
  forall (k : nat) (w : world),
    k < length attempts ->
    (forall j, j < k ->
       retried (http_get env (length (requests w) + j) url) = true) ->
    served (http_get env (length (requests w) + k) url) = Some hrefs ->
    fst (for_each attempts (fetch_attempt env url) w)
    = match select_links hrefs with
      | Returns links => Returns (Some links)
      | Raises e => Raises e
      end.
Proof.
  induction attempts as [|a rest IH]; intros k w Hk Hretried Hserved;
    [simpl in Hk; lia|].
  destruct k as [|k].
  - rewrite Nat.add_0_r in Hserved.
    pose proof (fetch_attempt_served url a w hrefs Hserved) as Hf.
    destruct (fetch_attempt env url a w) as [o w1] eqn:Hfa. simpl in Hf.
    subst o. destruct (select_links hrefs) as [links|e].
    + now rewrite (for_each_return _ a rest w w1 links Hfa).
    + now rewrite (for_each_raise _ a rest w w1 e Hfa).
  - assert (retried (http_get env (length (requests w)) url) = true) as H0
      by (rewrite <- (Nat.add_0_r (length _)); apply Hretried; lia).
    destruct (fetch_attempt_retried url a w H0) as (Hf & Hreq & _).
    destruct (fetch_attempt env url a w) as [o w1] eqn:Hfa.
    simpl in Hf, Hreq. subst o.
    rewrite (for_each_next _ a rest w w1 Hfa). apply (IH k w1).
    + simpl in Hk. lia.
    + intros j Hj. rewrite Hreq. simpl.
      rewrite <- Nat.add_succ_r. apply Hretried. lia.
    + rewrite Hreq. simpl. now rewrite <- Nat.add_succ_r.
Qed.

(** The loop over the attempts when every reply is of the retried kind:
    it ends without a result, one request per attempt, and the
    checkpoint is not touched. *)
Lemma fetch_loop_exhausted (url : pystr) (attempts : list nat) :
  forall w : world,
    (forall j, j < length attempts ->
       retried (http_get env (length (requests w) + j) url) = true) ->
    fst (for_each attempts (fetch_attempt env url) w) = Returns None /\
    length (requests (snd (for_each attempts (fetch_attempt env url) w)))
    = length (requests w) + length attempts /\
    completed (snd (for_each attempts (fetch_attempt env url) w))
    = completed w.
Proof.
  induction attempts as [|a rest IH]; intros w Hretried.
  - simpl. rewrite Nat.add_0_r. auto.
  - assert (retried (http_get env (length (requests w)) url) = true) as H0
      by (rewrite <- (Nat.add_0_r (length _)); apply Hretried; simpl; lia).
    destruct (fetch_attempt_retried url a w H0) as (Hf & Hreq & Hc).
    destruct (fetch_attempt env url a w) as [o w1] eqn:Hfa.
    simpl in Hf, Hreq, Hc. subst o.
    rewrite (for_each_next _ a rest w w1 Hfa).
    destruct (IH w1) as (Hr & Hlen & Hcomp).
    + intros j Hj. rewrite Hreq. simpl.
      rewrite <- Nat.add_succ_r. apply Hretried. simpl. lia.
    + rewrite Hr, Hlen, Hcomp, Hreq, Hc. simpl. repeat split; lia.
Qed.
End FetchFacts.

Lemma repeat_snoc_app {A} (x : A) (k : nat) (l : list A) :
  repeat x k ++ x :: l = repeat x (S k) ++ l.
Proof. induction k as [|k IH]; [reflexivity|]. simpl. now rewrite IH. Qed.

(** ** What a fetch does to the world *)

Section FetchEffects.
Context `{PyRuntime} (env : environment) (url : pystr).

(** One attempt makes one request, pauses for 15 seconds exactly when the
    reply is a 503, and touches nothing else. *)
Lemma fetch_attempt_effect (attempt : nat) (w : world) :
  let reply := http_get env (length (requests w)) url in
  let w1 := snd (fetch_attempt env url attempt w) in
  requests w1 = url :: requests w /\
  sleeps w1 = (if is_busy reply then [SERVICE_UNAVAILABLE_DELAY] else [])
              ++ sleeps w /\
  wget_runs w1 = wget_runs w /\ files w1 = files w /\
  completed w1 = completed w /\ submitted w1 = submitted w /\
  classified w1 = classified w.
Proof.
  unfold fetch_attempt, bind, requests_get, is_busy. simpl.
  destruct (http_get env (length (requests w)) url) as [code hrefs|];
    [|now simpl].
  destruct (code =? 404)%Z eqn:H404.
  - apply Z.eqb_eq in H404. subst code. now simpl.
  - destruct (code =? 503)%Z; [now simpl|].
    destruct (raise_for_status code); [now simpl|].
    unfold lift. now destruct (select_links hrefs).
Qed.

(** What one attempt answers to the loop. *)
Lemma fetch_attempt_answer (attempt : nat) (w : world) :
  let reply := http_get env (length (requests w)) url in
  let answer := fst (fetch_attempt env url attempt w) in
  (retried reply = true /\ answer = Returns Next) \/
  (retried reply = false /\
   ((exists links, answer = Returns (Return links)) \/
    (exists hrefs e, served reply = Some hrefs /\
                     select_links hrefs = Raises e /\ answer = Raises e))).
Proof.
  unfold fetch_attempt, bind, requests_get, retried, served. simpl.
  destruct (http_get env (length (requests w)) url) as [code hrefs|];
    [|left; now simpl].
  destruct (code =? 404)%Z.
  { right. simpl. split; [reflexivity|]. left. now exists []. }
  destruct (code =? 503)%Z; [left; now simpl|].
  destruct (raise_for_status code); [left; now simpl|].
  right. simpl. split; [reflexivity|]. unfold lift.
  destruct (select_links hrefs) as [links|e] eqn:Hsel; simpl.
  - left. now exists links.
  - right. now exists hrefs, e.
Qed.

(** The loop over the attempts makes at least one request and at most one
    per attempt, all for the same address; it pauses only for 15 seconds,
    at most once per request, and touches nothing else. *)
Lemma fetch_loop_effect (attempts : list nat) :
  forall w : world,
    let w' := snd (for_each attempts (fetch_attempt env url) w) in
    exists k j : nat,
      k <= length attempts /\ (attempts <> [] -> 1 <= k) /\ j <= k /\
      requests w' = repeat url k ++ requests w /\
      sleeps w' = repeat SERVICE_UNAVAILABLE_DELAY j ++ sleeps w /\
      wget_runs w' = wget_runs w /\ files w' = files w /\
      completed w' = completed w /\ submitted w' = submitted w /\
      classified w' = classified w.
Proof.
  induction attempts as [|a rest IH]; intros w.
  - exists 0, 0. simpl. repeat split; auto; congruence.
  - destruct (fetch_attempt_effect a w)
      as (Hreq & Hsl & Hwg & Hfi & Hco & Hsu & Hcl).
    destruct (fetch_attempt env url a w) as [[c|e] w1] eqn:Hfa;
      simpl in Hreq, Hsl, Hwg, Hfi, Hco, Hsu, Hcl.
    + assert (exists j, j <= 1 /\
                sleeps w1 = repeat SERVICE_UNAVAILABLE_DELAY j ++ sleeps w)
        as (j1 & Hj1 & Hsl1).
      { revert Hsl. destruct (is_busy _); intros Hsl;
          [exists 1|exists 0]; (split; [lia|exact Hsl]). }
      destruct c as [| |links].
      * rewrite (for_each_next _ a rest w w1 Hfa).
        destruct (IH w1) as (k & j & Hk & _ & Hj & Hr & Hs & Hw & Hf & Hc & Hsb & Hcs).
        cbv zeta. exists (S k), (j + j1).
        rewrite Hr, Hs, Hw, Hf, Hc, Hsb, Hcs, Hreq, Hsl1, Hwg, Hfi, Hco, Hsu, Hcl.
        rewrite repeat_snoc_app, repeat_app, <- app_assoc.
        simpl. repeat split; auto; lia.
      * rewrite (for_each_break _ a rest w w1 Hfa). cbv zeta. simpl.
        exists 1, j1. rewrite Hreq, Hsl1. simpl. repeat split; auto; lia.
      * rewrite (for_each_return _ a rest w w1 links Hfa). cbv zeta. simpl.
        exists 1, j1. rewrite Hreq, Hsl1. simpl. repeat split; auto; lia.
    + assert (exists j, j <= 1 /\
                sleeps w1 = repeat SERVICE_UNAVAILABLE_DELAY j ++ sleeps w)
        as (j1 & Hj1 & Hsl1).
      { revert Hsl. destruct (is_busy _); intros Hsl;
          [exists 1|exists 0]; (split; [lia|exact Hsl]). }
      rewrite (for_each_raise _ a rest w w1 e Hfa). cbv zeta. simpl.
      exists 1, j1. rewrite Hreq, Hsl1. simpl. repeat split; auto; lia.
Qed.
(** The loop when, after [k] replies of the retried kind, a reply is a
    404: it is left there with no link, after [k + 1] requests, with one
    pause for each 503 among the [k] replies and none for the 404. *)
Lemma fetch_loop_not_found (hrefs : list pystr) (attempts : list nat) :
  forall (k : nat) (w : world),
    k < length attempts ->
    (forall j, j < k ->
       retried (http_get env (length (requests w) + j) url) = true) ->
    http_get env (length (requests w) + k) url = Response 404 hrefs ->
    let r := for_each attempts (fetch_attempt env url) w in
    fst r = Returns (Some []) /\
    requests (snd r) = repeat url (S k) ++ requests w /\
    sleeps (snd r)
    = repeat SERVICE_UNAVAILABLE_DELAY
        (length (List.filter (fun i => is_busy (http_get env i url))
                   (seq (length (requests w)) k)))
      ++ sleeps w /\
    completed (snd r) = completed w.
Proof.
  induction attempts as [|a rest IH]; intros k w Hk Hretried Hreply;
    [simpl in Hk; lia|].
  destruct (fetch_attempt_effect a w) as (Hreq & Hsl & _ & _ & Hco & _).
  destruct k as [|k].
  - rewrite Nat.add_0_r in Hreply.
    assert (fst (fetch_attempt env url a w) = Returns (Return [])) as Hf.
    { unfold fetch_attempt, bind, requests_get. simpl. now rewrite Hreply. }
    destruct (fetch_attempt env url a w) as [o w1] eqn:Hfa.
    simpl in Hf, Hreq, Hsl, Hco. subst o. rewrite Hreply in Hsl.
    rewrite (for_each_return _ a rest w w1 [] Hfa). cbv zeta. simpl.
    rewrite Hreq, Hco. auto.
  - assert (retried (http_get env (length (requests w)) url) = true) as H0
      by (rewrite <- (Nat.add_0_r (length _)); apply Hretried; lia).
    destruct (fetch_attempt_retried env url a w H0) as (Hf & _ & _).
    destruct (fetch_attempt env url a w) as [o w1] eqn:Hfa.
    simpl in Hf, Hreq, Hsl, Hco. subst o.
    rewrite (for_each_next _ a rest w w1 Hfa).
    destruct (IH k w1) as (Hr & Hq & Hs & Hc).
    + simpl in Hk. lia.
    + intros j Hj. rewrite Hreq. simpl.
      rewrite <- Nat.add_succ_r. apply Hretried. lia.
    + rewrite Hreq. simpl. now rewrite <- Nat.add_succ_r.
    + cbv zeta. rewrite Hr, Hq, Hs, Hc, Hreq, Hsl, Hco.
      split; [reflexivity|]. split; [now rewrite !repeat_snoc_app|].
      split; [|reflexivity].
      cbn [length seq List.filter].
      destruct (is_busy (http_get env (length (requests w)) url));
        cbn [length app]; [now rewrite repeat_snoc_app|reflexivity].
Qed.
End FetchEffects.

Section DriverFacts.
Context `{PyRuntime} (env : environment).

(** A page whose fetch gives no link is taken for done: the body of the
    loop of [main] writes its number to the checkpoint. *)
Lemma empty_result_checkpointed (page : Z) (w w1 : world) :
  fetch_page_links env page w = (Returns [], w1) ->
  fst (main_step env page w) = Returns Next /\
  completed (snd (main_step env page w)) = page :: completed w1.
Proof.
  intros Hf.
  unfold main_step, process_page_with_retries, MAX_RETRIES, page_attempt.
  cbn [seq for_each]. unfold bind. rewrite Hf. now simpl.
Qed.

Lemma fetch_page_links_exhausted (page : Z) (w : world) :
  (forall j, j < SERVICE_UNAVAILABLE_RETRIES + 1 ->
     retried (http_get env (length (requests w) + j) (page_url page)) = true) ->
  fst (fetch_page_links env page w) = Returns [] /\
  length (requests (snd (fetch_page_links env page w)))
  = length (requests w) + (SERVICE_UNAVAILABLE_RETRIES + 1) /\
  completed (snd (fetch_page_links env page w)) = completed w.
Proof.
  intros Hretried.
  destruct (fetch_loop_exhausted env (page_url page)
              (seq 0 (SERVICE_UNAVAILABLE_RETRIES + 1)) w)
    as (Hr & Hlen & Hc).
  { intros j Hj. apply Hretried. now rewrite length_seq in Hj. }
  rewrite length_seq in Hlen.
  unfold fetch_page_links, bind.
  destruct (for_each _ _ w) as [o w1]. simpl in Hr, Hlen, Hc. subst o.
  now simpl.
Qed.

(** When every attempt to fetch a page fails, the page is checkpointed
    all the same. *)
Lemma failed_fetch_still_checkpointed (page : Z) (w : world) :
  (forall j, j < SERVICE_UNAVAILABLE_RETRIES + 1 ->
     retried (http_get env (length (requests w) + j) (page_url page)) = true) ->
  fst (main_step env page w) = Returns Next /\
  completed (snd (main_step env page w)) = page :: completed w.
Proof.
  intros Hretried.
  destruct (fetch_page_links_exhausted page w Hretried) as (Hr & _ & Hc).
  destruct (fetch_page_links env page w) as [o w1] eqn:Hf.
  simpl in Hr, Hc. subst o. rewrite <- Hc.
  now apply empty_result_checkpointed.
Qed.

(** C1, amended.  When a page is fetched with success, after any number
    of retried attempts, a link is kept exactly when it is an [href] of
    the page, the lowered [href] as a whole ends in [.epub] or [.pdf],
    and the preferred domain occurs inside the netloc of the [href]. *)
Theorem kept_links_characterised (page : Z) (w : world) (k : nat)
    (hrefs links : list pystr) :
  k < SERVICE_UNAVAILABLE_RETRIES + 1 ->
  (forall j, j < k ->
     retried (http_get env (length (requests w) + j) (page_url page)) = true) ->
  served (http_get env (length (requests w) + k) (page_url page)) = Some hrefs ->
  fst (fetch_page_links env page w) = Returns links ->
  forall href,
    In href links <->
    In href hrefs /\
    endswith_any (str_lower href) [str ".epub"; str ".pdf"] = true /\
    exists netloc,
      urlparse_netloc href = Some netloc /\
      str_contains PREFERRED_DOMAIN netloc = true.
Proof.
  intros Hk Hretried Hserved Hlinks href.
  pose proof (fetch_loop_served env (page_url page) hrefs
                (seq 0 (SERVICE_UNAVAILABLE_RETRIES + 1)) k w) as Hloop.
  rewrite length_seq in Hloop. specialize (Hloop Hk Hretried Hserved).
  unfold fetch_page_links, bind in Hlinks.
  destruct (for_each _ _ w) as [o w1]. simpl in Hloop. subst o.
  destruct (select_links hrefs) as [kept|e] eqn:Hsel; [|discriminate].
  simpl in Hlinks. injection Hlinks as <-.
  rewrite (select_links_member hrefs kept Hsel href).
  now rewrite keeps_link_true.
Qed.

(** C6.  A 404 ends the fetch at once, at whichever attempt it comes.
    After [k] replies of the retried kind and a 404, the fetch returns the
    empty list with [k + 1] requests made, so no attempt follows the 404,
    and with one pause for each 503 among the [k] replies, so none for
    the 404; and the crawl driver writes the number of the page to the
    checkpoint. *)
Theorem not_found_page_completed (page : Z) (w : world) (k : nat)
    (hrefs : list pystr) :
  k < SERVICE_UNAVAILABLE_RETRIES + 1 ->
  (forall j, j < k ->
     retried (http_get env (length (requests w) + j) (page_url page)) = true) ->
  http_get env (length (requests w) + k) (page_url page) = Response 404 hrefs ->
  fst (fetch_page_links env page w) = Returns [] /\
  requests (snd (fetch_page_links env page w))
  = repeat (page_url page) (S k) ++ requests w /\
  sleeps (snd (fetch_page_links env page w))
  = repeat SERVICE_UNAVAILABLE_DELAY
      (length (List.filter
                 (fun i => is_busy (http_get env i (page_url page)))
                 (seq (length (requests w)) k)))
    ++ sleeps w /\
  fst (main_step env page w) = Returns Next /\
  completed (snd (main_step env page w)) = page :: completed w.
Proof.
  intros Hk Hretried Hreply.
  destruct (fetch_loop_not_found env (page_url page) hrefs
              (seq 0 (SERVICE_UNAVAILABLE_RETRIES + 1)) k w)
    as (Hr & Hq & Hs & Hc); [now rewrite length_seq|auto..|].
  assert (exists w1,
             fetch_page_links env page w = (Returns [], w1) /\
             requests w1 = repeat (page_url page) (S k) ++ requests w /\
             sleeps w1
             = repeat SERVICE_UNAVAILABLE_DELAY
                 (length (List.filter
                            (fun i => is_busy (http_get env i (page_url page)))
                            (seq (length (requests w)) k)))
               ++ sleeps w /\
             completed w1 = completed w)
    as (w1 & Hf & Hreq & Hsl & Hco).
  { unfold fetch_page_links, bind.
    destruct (for_each _ _ w) as [o w1]. simpl in Hr, Hq, Hs, Hc. subst o.
    exists w1. now simpl. }
  rewrite Hf. simpl.
  destruct (empty_result_checkpointed page w w1 Hf) as (Hstep & Hcomp).
  rewrite Hstep, Hcomp, Hco. auto.
Qed.
End DriverFacts.

(** Page 42 of a site that answers 503 and then 404: two requests, one
    pause, and the page is written to the checkpoint. *)
Lemma not_found_page_completed_witness :
  retried (http_get busy_then_not_found 0 (page_url 42)) = true /\
  http_get busy_then_not_found 1 (page_url 42) = Response 404 [] /\
  requests (snd (@fetch_page_links cpython_fragment busy_then_not_found 42
                   (initial_world ∅)))
  = [page_url 42; page_url 42] /\
  sleeps (snd (@fetch_page_links cpython_fragment busy_then_not_found 42
                 (initial_world ∅)))
  = [15%Z] /\
  completed (snd (@main_step cpython_fragment busy_then_not_found 42
                    (initial_world ∅)))
  = [42%Z].
Proof.
  split; [reflexivity|]. split; [reflexivity|].
  destruct (@not_found_page_completed cpython_fragment busy_then_not_found 42
              (initial_world ∅) 1 [])
    as (_ & Hq & Hs & _ & Hc).
  - unfold SERVICE_UNAVAILABLE_RETRIES. lia.
  - intros j Hj. destruct j as [|j]; [reflexivity|lia].
  - reflexivity.
  - split; [exact Hq|]. split; [exact Hs|exact Hc].
Defined.

(** Page 42 of a site that answers 404 at once: one request, no pause. *)
Lemma not_found_at_first_request :
  requests (snd (@fetch_page_links cpython_fragment not_found 42
                   (initial_world ∅)))
  = [page_url 42] /\
  sleeps (snd (@fetch_page_links cpython_fragment not_found 42
                 (initial_world ∅)))
  = [] /\
  completed (snd (@main_step cpython_fragment not_found 42 (initial_world ∅)))
  = [42%Z].
Proof. repeat split; vm_compute; reflexivity. Qed.

(** A page served at the first attempt with two links. *)
Lemma kept_links_characterised_witness :
  served (http_get lookalike_site 0 (page_url 1))
  = Some [LOOKALIKE_HREF; QUERY_HREF] /\
  (In QUERY_HREF [LOOKALIKE_HREF; QUERY_HREF] <->
   In QUERY_HREF [LOOKALIKE_HREF; QUERY_HREF] /\
   endswith_any (fragment_lower QUERY_HREF) [str ".epub"; str ".pdf"] = true /\
   exists netloc,
     fragment_netloc QUERY_HREF = Some netloc /\
     str_contains PREFERRED_DOMAIN netloc = true).
Proof.
  split; [reflexivity|].
  apply (@kept_links_characterised cpython_fragment lookalike_site 1
           (initial_world ∅) 0 [LOOKALIKE_HREF; QUERY_HREF]
           [LOOKALIKE_HREF; QUERY_HREF]).
  - unfold SERVICE_UNAVAILABLE_RETRIES. lia.
  - intros j Hj. lia.
  - reflexivity.
  - reflexivity.
Defined.

(** C1 as it is written fails on a host that has the preferred domain
    inside its name: the link is kept, and its host is another one. *)
Lemma lookalike_host_kept :
  ~ (forall (page : Z) (links : list pystr) (href : pystr),
       fst (@fetch_page_links cpython_fragment lookalike_site page
              (initial_world ∅)) = Returns links ->
       In href links ->
       fragment_netloc href = Some PREFERRED_DOMAIN).
Proof.
  intros Hclaim.
  specialize (Hclaim 1%Z [LOOKALIKE_HREF; QUERY_HREF] LOOKALIKE_HREF
                eq_refl (or_introl eq_refl)).
  vm_compute in Hclaim. discriminate.
Qed.

(** The link whose path is [/view] is kept as well: the suffix is looked
    for at the end of the whole [href], here the end of the query. *)
Lemma query_suffix_kept :
  fst (@fetch_page_links cpython_fragment lookalike_site 1 (initial_world ∅))
  = Returns [LOOKALIKE_HREF; QUERY_HREF].
Proof. reflexivity. Qed.

(** C2, on the code.  Every request to a site that never answers raises;
    after the three attempts at page 7 the run of [main] over that page
    has written 7 to the checkpoint. *)
Theorem unreachable_page_checkpointed :
  (forall n url, http_get unreachable n url = RequestException) /\
  length (requests (snd (@main cpython_fragment unreachable 7 7
                           (initial_world ∅)))) = 3 /\
  completed (snd (@main cpython_fragment unreachable 7 7 (initial_world ∅)))
  = [7%Z].
Proof.
  split; [reflexivity|].
  assert (snd (@main cpython_fragment unreachable 7 7 (initial_world ∅))
          = snd (@main_step cpython_fragment unreachable 7 (initial_world ∅)))
    as -> by reflexivity.
  destruct (@failed_fetch_still_checkpointed cpython_fragment unreachable 7
              (initial_world ∅)) as (_ & Hc); [reflexivity|].
  split; [reflexivity|exact Hc].
Qed.

(** ** Downloads *)

Section DownloadFacts.
Context (env : environment) (url : pystr).

Local Abbreviation temp_path := (temp_path_of env url).
Local Abbreviation final_path := (final_path_of url).
Local Abbreviation body := (download_attempt env url temp_path final_path).

(** One attempt: what it answers to the loop follows the exit status of
    this run of [wget], and it makes that one run.  After a run that ends
    well the file is moved, or the move raises and the file stays at the
    temporary path.  The logs of the scheduler are not touched. *)
Lemma download_attempt_cases (attempt : nat) (w : world) :
  let code := returncode (wget env (length (wget_runs w)) url) in
  let w1 := snd (body attempt w) in
  (code = 0%Z /\ target_ready env url = true /\
   fst (body attempt w) = Returns (Return Succeeded) /\
   final_path ∈ files w1 \/
   code = 0%Z /\ target_ready env url = false /\
   fst (body attempt w) = Raises OSError /\
   files w1 = {[ temp_path ]} ∪ files w \/
   code = 8%Z /\ fst (body attempt w) = Returns Next \/
   code <> 0%Z /\ code <> 8%Z /\ fst (body attempt w) = Returns Break) /\
  wget_runs w1 = url :: wget_runs w /\
  submitted w1 = submitted w /\ classified w1 = classified w.
Proof.
  unfold download_attempt, bind, run_wget, move, target_ready.
  cbn [fst snd files].
  destruct (returncode _ =? 0)%Z eqn:H0.
  - apply Z.eqb_eq in H0. rewrite orb_true_r. cbv iota. cbn [files].
    rewrite (bool_decide_eq_true_2 (temp_path ∈ {[temp_path]} ∪ files w))
      by set_solver.
    cbn [andb].
    destruct (bool_decide (temp_path = final_path) || has_directory env final_path);
      simpl; (split; [|auto]).
    + left. split; [exact H0|]. split; [reflexivity|].
      split; [reflexivity|]. set_solver.
    + right. left. auto.
  - apply Z.eqb_neq in H0.
    destruct (returncode _ =? 8)%Z eqn:H8; simpl.
    + apply Z.eqb_eq in H8. split; [|auto]. do 2 right. left. auto.
    + apply Z.eqb_neq in H8. split; [|auto]. do 3 right. auto.
Qed.

(** The loop over the attempts keeps the logs of the scheduler; when it
    ends with a result, the result is [Succeeded] and the file is at its
    final path; the only exception it is left by is the one of the move. *)
Lemma download_loop_result (attempts : list nat) :
  forall w : world,
    let r := for_each attempts body w in
    (fst r = Returns None \/
     fst r = Returns (Some Succeeded) /\ final_path ∈ files (snd r) \/
     fst r = Raises OSError) /\
    submitted (snd r) = submitted w /\ classified (snd r) = classified w.
Proof.
  induction attempts as [|a rest IH]; intros w; [simpl; auto|].
  destruct (download_attempt_cases a w) as (Hcases & _ & Hsub & Hcl).
  destruct (body a w) as [c w1] eqn:Hb. simpl in Hcases, Hsub, Hcl.
  destruct Hcases as [(_ & _ & -> & Hin)|[(_ & _ & -> & _)|
                      [(_ & ->)|(_ & _ & ->)]]].
  - rewrite (for_each_return body a rest w w1 Succeeded Hb). simpl. auto.
  - rewrite (for_each_raise body a rest w w1 OSError Hb). simpl. auto.
  - rewrite (for_each_next body a rest w w1 Hb).
    destruct (IH w1) as (Hr & Hs & Hc). simpl in Hr, Hs, Hc.
    simpl. rewrite Hs, Hc. auto.
  - rewrite (for_each_break body a rest w w1 Hb). simpl. auto.
Qed.

(** The loop over the attempts when, after [k] runs that end in the
    status of a busy server, a run ends in another failure: the loop is
    left there, with [k + 1] runs made. *)
Lemma download_loop_stops (attempts : list nat) :
  forall (k : nat) (w : world),
    k < length attempts ->
    (forall j, j < k ->
       returncode (wget env (length (wget_runs w) + j) url) = 8%Z) ->
    returncode (wget env (length (wget_runs w) + k) url) <> 0%Z ->
    returncode (wget env (length (wget_runs w) + k) url) <> 8%Z ->
    fst (for_each attempts body w) = Returns None /\
    length (wget_runs (snd (for_each attempts body w)))
    = length (wget_runs w) + k + 1.
Proof.
  induction attempts as [|a rest IH]; intros k w Hk Hbusy Hn0 Hn8;
    [simpl in Hk; lia|].
  destruct (download_attempt_cases a w) as (Hcases & Hruns & _).
  destruct (body a w) as [c w1] eqn:Hb. simpl in Hcases, Hruns.
  destruct k as [|k].
  - rewrite Nat.add_0_r in Hn0, Hn8.
    destruct Hcases as [(H0 & _)|[(H0 & _)|[(H8 & _)|(_ & _ & ->)]]];
      [easy|easy|easy|].
    rewrite (for_each_break body a rest w w1 Hb). simpl.
    rewrite Hruns. simpl. split; [reflexivity|lia].
  - assert (returncode (wget env (length (wget_runs w)) url) = 8%Z) as H8
      by (rewrite <- (Nat.add_0_r (length _)); apply Hbusy; lia).
    destruct Hcases as [(H0 & _)|[(H0 & _)|[(_ & ->)|(_ & Hne & _)]]];
      [rewrite H8 in H0; discriminate|rewrite H8 in H0; discriminate| |easy].
    rewrite (for_each_next body a rest w w1 Hb).
    destruct (IH k w1) as (Hr & Hlen).
    + simpl in Hk. lia.
    + intros j Hj. rewrite Hruns. simpl.
      rewrite <- Nat.add_succ_r. apply Hbusy. lia.
    + rewrite Hruns. simpl. now rewrite <- Nat.add_succ_r.
    + rewrite Hruns. simpl. now rewrite <- Nat.add_succ_r.
    + rewrite Hr, Hlen, Hruns. simpl. split; [reflexivity|lia].
Qed.
End DownloadFacts.

Section DownloadOne.
Context (env : environment) (url : pystr).

Lemma download_with_wget_already (w : world) :
  final_path_of url ∈ files w ->
  download_with_wget env url w = (Returns AlreadyComplete, w).
Proof.
  intros Hin. unfold download_with_wget, bind, path_exists.
  fold (final_path_of url). now rewrite (bool_decide_eq_true_2 _ Hin).
Qed.

(** What a call gives when the file is not there yet: the result of the
    loop when it has one, [Failed] with no file at the temporary path
    when it has none, and the exception of the move when the loop is left
    by it.  The logs of the scheduler are kept. *)
Lemma download_with_wget_fresh (w : world) :
  final_path_of url ∉ files w ->
  let loop := for_each (seq 0 (SERVICE_UNAVAILABLE_RETRIES + 1))
                (download_attempt env url (temp_path_of env url)
                   (final_path_of url)) w in
  let r := download_with_wget env url w in
  (fst loop = Returns (Some Succeeded) /\ r = (Returns Succeeded, snd loop) \/
   fst loop = Returns None /\ fst r = Returns Failed /\
   (temp_path_of env url ∉ files (snd r)) /\
   wget_runs (snd r) = wget_runs (snd loop) \/
   fst loop = Raises OSError /\ r = (Raises OSError, snd loop)) /\
  submitted (snd r) = submitted w /\ classified (snd r) = classified w.
Proof.
  intros Hout. unfold download_with_wget, bind, path_exists.
  fold (final_path_of url) (temp_path_of env url).
  rewrite (bool_decide_eq_false_2 _ Hout).
  destruct (download_loop_result env url
              (seq 0 (SERVICE_UNAVAILABLE_RETRIES + 1)) w)
    as (Hres & Hsub & Hcl).
  destruct (for_each _ _ w) as [o w1]. simpl in Hres, Hsub, Hcl. simpl.
  destruct Hres as [->|[(-> & Hin)| ->]].
  - destruct (bool_decide (temp_path_of env url ∈ files w1)) eqn:Ht; simpl.
    + split; [|auto]. right. left.
      split; [reflexivity|]. split; [reflexivity|].
      split; [|reflexivity].
      apply not_elem_of_difference. right. now apply elem_of_singleton.
    + apply bool_decide_eq_false in Ht. split; [|auto]. right. left. auto.
  - simpl. split; [|auto]. left. auto.
  - simpl. split; [|auto]. do 2 right. auto.
Qed.

(** A call that returns [True] leaves the file at its final path. *)
Lemma download_done_file_present (w w' : world) (o : download_outcome) :
  download_with_wget env url w = (Returns o, w') ->
  download_returns o = true ->
  final_path_of url ∈ files w'.
Proof.
  intros Hd Ho.
  destruct (decide (final_path_of url ∈ files w)) as [Hin|Hout].
  - rewrite (download_with_wget_already w Hin) in Hd.
    now injection Hd as _ <-.
  - destruct (download_with_wget_fresh w Hout) as (Hcases & _).
    rewrite Hd in Hcases. simpl in Hcases.
    destruct Hcases as [(Hl & Hr)|[(_ & Hf & _)|(_ & Hr)]].
    + injection Hr as _ ->.
      destruct (download_loop_result env url
                  (seq 0 (SERVICE_UNAVAILABLE_RETRIES + 1)) w)
        as ([Hn|[(_ & Hin)|Hn]] & _); [|exact Hin|];
        simpl in Hn; rewrite Hl in Hn; discriminate.
    + injection Hf as ->. discriminate.
    + discriminate.
Qed.

(** C5.  When the file is at its final path, the call returns
    [AlreadyComplete] and leaves the world as it is: no run of [wget], no
    pause, no change of a file.  So a call after a call that returned
    [True] is of that kind. *)
Theorem existing_file_not_downloaded (w : world) :
  (final_path_of url ∈ files w ->
   download_with_wget env url w = (Returns AlreadyComplete, w)) /\
  (forall (o : download_outcome) (w' : world),
     download_with_wget env url w = (Returns o, w') ->
     download_returns o = true ->
     download_with_wget env url w' = (Returns AlreadyComplete, w')).
Proof.
  split; [apply download_with_wget_already|].
  intros o w' Hd Ho. apply download_with_wget_already.
  exact (download_done_file_present w w' o Hd Ho).
Qed.

(** C7.  A call that returns [Failed] leaves no file at the temporary
    path; and when, after [k] runs that end in the status of a busy
    server, a run of [wget] ends in a failure of another kind, the call
    returns [Failed] with that run as its last one. *)
Theorem failed_download_stops_and_cleans (w : world) :
  (forall w' : world,
     download_with_wget env url w = (Returns Failed, w') ->
     temp_path_of env url ∉ files w') /\
  (forall k : nat,
     final_path_of url ∉ files w ->
     k < SERVICE_UNAVAILABLE_RETRIES + 1 ->
     (forall j, j < k ->
        returncode (wget env (length (wget_runs w) + j) url) = 8%Z) ->
     returncode (wget env (length (wget_runs w) + k) url) <> 0%Z ->
     returncode (wget env (length (wget_runs w) + k) url) <> 8%Z ->
     fst (download_with_wget env url w) = Returns Failed /\
     length (wget_runs (snd (download_with_wget env url w)))
     = length (wget_runs w) + k + 1 /\
     temp_path_of env url ∉ files (snd (download_with_wget env url w))).
Proof.
  split.
  - intros w' Hd.
    destruct (decide (final_path_of url ∈ files w)) as [Hin|Hout].
    + rewrite (download_with_wget_already w Hin) in Hd. discriminate.
    + destruct (download_with_wget_fresh w Hout) as (Hcases & _).
      rewrite Hd in Hcases. simpl in Hcases.
      destruct Hcases as [(_ & Hr)|[(_ & _ & Hclean & _)|(_ & Hr)]];
        [discriminate|exact Hclean|discriminate].
  - intros k Hout Hk Hbusy Hn0 Hn8.
    destruct (download_loop_stops env url
                (seq 0 (SERVICE_UNAVAILABLE_RETRIES + 1)) k w)
      as (Hnone & Hlen); [now rewrite length_seq|auto..|].
    destruct (download_with_wget_fresh w Hout) as (Hcases & _).
    cbv zeta in Hcases.
    destruct Hcases as [(Hsome & _)|[(_ & Hf & Hclean & Hruns)|(Hraise & _)]].
    + rewrite Hnone in Hsome. discriminate.
    + rewrite Hruns. auto.
    + rewrite Hnone in Hraise. discriminate.
Qed.
End DownloadOne.

(** A file that is already in the downloads directory, and the call
    after a download that went well. *)
Lemma existing_file_not_downloaded_witness :
  final_path_of BOOK_URL ∈ files (initial_world {[ final_path_of BOOK_URL ]}) /\
  download_with_wget unreachable BOOK_URL
    (initial_world {[ final_path_of BOOK_URL ]})
  = (Returns AlreadyComplete, initial_world {[ final_path_of BOOK_URL ]}) /\
  fst (download_with_wget unreachable BOOK_URL (initial_world ∅))
  = Returns Succeeded /\
  fst (download_with_wget unreachable BOOK_URL
         (snd (download_with_wget unreachable BOOK_URL (initial_world ∅))))
  = Returns AlreadyComplete.
Proof.
  assert (final_path_of BOOK_URL
          ∈ files (initial_world {[ final_path_of BOOK_URL ]})) as Hin
    by (simpl; now apply elem_of_singleton).
  split; [exact Hin|]. split.
  - exact (proj1 (existing_file_not_downloaded unreachable BOOK_URL
                    (initial_world {[ final_path_of BOOK_URL ]})) Hin).
  - split; [reflexivity|].
    destruct (download_with_wget unreachable BOOK_URL (initial_world ∅))
      as [o w'] eqn:Hd.
    assert (o = Returns Succeeded) as ->
      by (apply (f_equal fst) in Hd; vm_compute in Hd; congruence).
    simpl.
    now rewrite (proj2 (existing_file_not_downloaded unreachable BOOK_URL
                          (initial_world ∅)) Succeeded w' Hd eq_refl).
Defined.

(** A download whose first run of [wget] ends in a network failure. *)
Lemma failed_download_stops_and_cleans_witness :
  (final_path_of BOOK_URL ∉ files (initial_world ∅)) /\
  returncode (wget flaky 0 BOOK_URL) = 4%Z /\
  fst (download_with_wget flaky BOOK_URL (initial_world ∅)) = Returns Failed /\
  length (wget_runs (snd (download_with_wget flaky BOOK_URL (initial_world ∅))))
  = 1.
Proof.
  assert (final_path_of BOOK_URL ∉ files (initial_world ∅)) as Hout
    by (simpl; apply not_elem_of_empty).
  split; [exact Hout|]. split; [reflexivity|].
  destruct (proj2 (failed_download_stops_and_cleans flaky BOOK_URL
                     (initial_world ∅)) 0 Hout) as (Hf & Hlen & _).
  - unfold SERVICE_UNAVAILABLE_RETRIES. lia.
  - intros j Hj. lia.
  - simpl. lia.
  - simpl. lia.
  - split; [exact Hf|exact Hlen].
Defined.

(** ** Download scheduler *)

Section SchedulerFacts.
Context `{PyRuntime} (env : environment).

(** A call of [download_with_wget] keeps the logs of the scheduler. *)
Lemma download_with_wget_logs (url : pystr) (w : world) :
  submitted (snd (download_with_wget env url w)) = submitted w /\
  classified (snd (download_with_wget env url w)) = classified w.
Proof.
  destruct (decide (final_path_of url ∈ files w)) as [Hin|Hout].
  - now rewrite (download_with_wget_already env url w Hin).
  - now destruct (download_with_wget_fresh env url w Hout) as (_ & Hs & Hc).
Qed.

(** The first loop of [process_links] classifies each link it is given
    once, in order, and keeps the accepted ones. *)
Lemma filter_links_spec (unique_links : list pystr) :
  forall w : world,
    fst (filter_links unique_links w)
    = Returns (List.filter accepted unique_links) /\
    classified (snd (filter_links unique_links w))
    = rev (map friendly_filename unique_links) ++ classified w /\
    submitted (snd (filter_links unique_links w)) = submitted w.
Proof.
  induction unique_links as [|link rest IH]; intros w; [simpl; auto|].
  destruct (is_english_file_returns (friendly_filename link)) as [b Hb].
  assert (accepted link = b) as Hacc
    by (unfold accepted; rewrite Hb; now destruct b).
  cbn [filter_links List.filter map rev]. rewrite Hacc.
  unfold bind, classify. rewrite Hb. cbn beta iota.
  match goal with
  | |- context [filter_links rest ?w1] =>
      destruct (IH w1) as (Hf & Hc & Hs);
      destruct (filter_links rest w1) as [o w2]
  end.
  simpl in Hf, Hc, Hs. subst o. simpl.
  rewrite Hc, Hs, <- app_assoc. simpl. now destruct b.
Qed.

(** The pool gets one task per link of the list, in order. *)
Lemma executor_map_spec (links : list pystr) :
  forall w : world,
    fst (executor_map env links w) = Returns tt /\
    submitted (snd (executor_map env links w)) = rev links ++ submitted w /\
    classified (snd (executor_map env links w)) = classified w.
Proof.
  induction links as [|link rest IH]; intros w; [simpl; auto|].
  cbn [executor_map rev]. unfold bind, submit.
  match goal with
  | |- context [download_with_wget env link ?w0] =>
      destruct (download_with_wget_logs link w0) as (Hs & Hc);
      destruct (download_with_wget env link w0) as [o w1]
  end.
  simpl in Hs, Hc. destruct (IH w1) as (Hf & Hs' & Hc').
  rewrite Hf, Hs', Hc', Hs, Hc, <- app_assoc. now simpl.
Qed.

Lemma unique_spec (links : list pystr) :
  NoDup (unique links) /\ forall u, In u (unique links) <-> In u links.
Proof.
  unfold unique. split; [apply NoDup_elements|].
  intros u. rewrite <- !list_elem_of_In, elem_of_elements.
  apply elem_of_list_to_set.
Qed.

(** C8.  The links of a page are made distinct before anything else:
    each distinct url is classified once, and each accepted url is handed
    to the pool once. *)
Theorem links_deduplicated (links : list pystr) (w : world) :
  NoDup (unique links) /\
  (forall u, In u (unique links) <-> In u links) /\
  fst (process_links env links w) = Returns tt /\
  classified (snd (process_links env links w))
  = rev (map friendly_filename (unique links)) ++ classified w /\
  submitted (snd (process_links env links w))
  = rev (List.filter accepted (unique links)) ++ submitted w /\
  NoDup (List.filter accepted (unique links)).
Proof.
  destruct (unique_spec links) as (Hnd & Hmem).
  split; [exact Hnd|]. split; [exact Hmem|].
  assert (NoDup (List.filter accepted (unique links))) as Hnf
    by now apply NoDup_ListNoDup, List.NoDup_filter, NoDup_ListNoDup.
  unfold process_links, bind.
  destruct (filter_links_spec (unique links) w) as (Hf & Hc & Hs).
  destruct (filter_links (unique links) w) as [o w1].
  simpl in Hf, Hc, Hs. subst o.
  destruct (List.filter accepted (unique links)) as [|l ls] eqn:Hfl.
  - simpl. auto.
  - destruct (executor_map_spec (l :: ls) w1) as (He & Hs' & Hc').
    rewrite He, Hs', Hc', Hs, Hc. auto.
Qed.
End SchedulerFacts.

(** A page that lists the same book three times, and a name with a
    stopword once: one task for the book, none for the other. *)
Lemma duplicate_link_downloaded_once :
  submitted (snd (@process_links cpython_fragment unreachable
                    [BOOK_URL; BOOK_URL; LE_LIVRE_URL; BOOK_URL]
                    (initial_world ∅)))
  = [BOOK_URL] /\
  wget_runs (snd (@process_links cpython_fragment unreachable
                    [BOOK_URL; BOOK_URL; LE_LIVRE_URL; BOOK_URL]
                    (initial_world ∅)))
  = [BOOK_URL].
Proof. split; vm_compute; reflexivity. Qed.

(** ** Checkpoint file *)

Lemma digit_value_ascii (k : Z) :
  (0 <= k <= 9)%Z -> digit_value (48 + k) = Some k.
Proof.
  intros Hk. unfold digit_value, DECIMAL_DIGIT_RANGES. cbn [List.find fst snd].
  rewrite (in_range_true _ _ (48 + k)%Z) by lia. cbn [fst snd].
  f_equal. replace (48 + k - 48)%Z with k by lia. apply Z.mod_small. lia.
Qed.

(** The decimal text of a number: its length and its characters. *)
Lemma uint_text_cases (d : Decimal.uint) :
  d = Decimal.Nil \/
  exists (k : Z) (d' : Decimal.uint),
    (0 <= k <= 9)%Z /\
    str (NilEmpty.string_of_uint d) = (48 + k)%Z :: str (NilEmpty.string_of_uint d') /\
    Decimal.nb_digits d = S (Decimal.nb_digits d') /\
    (forall acc, Z.pos (Pos.of_uint_acc d acc) =
                 Z.pos (Pos.of_uint_acc d' (Z.to_pos (10 * Z.pos acc + k)))) /\
    Pos.of_uint d = (if (k =? 0)%Z then Pos.of_uint d'
                     else Npos (Pos.of_uint_acc d' (Z.to_pos k))).
Proof.
  destruct d as [|d'|d'|d'|d'|d'|d'|d'|d'|d'|d'];
    [ now left
    | right; exists 0%Z, d' | right; exists 1%Z, d' | right; exists 2%Z, d'
    | right; exists 3%Z, d' | right; exists 4%Z, d' | right; exists 5%Z, d'
    | right; exists 6%Z, d' | right; exists 7%Z, d' | right; exists 8%Z, d'
    | right; exists 9%Z, d' ].
  all: split; [lia|]; split; [reflexivity|]; split; [reflexivity|];
    split; [|reflexivity].
  all: intros acc; cbn [Pos.of_uint_acc]; do 2 f_equal; lia.
Qed.

Lemma int_digits_uint_pos (n : nat) :
  forall (d : Decimal.uint) (acc : positive) (count : nat),
    Decimal.nb_digits d = n ->
    int_digits (str (NilEmpty.string_of_uint d)) (Z.pos acc) count
    = Some (Z.pos (Pos.of_uint_acc d acc), count + n).
Proof.
  induction n as [|n IH]; intros d acc count Hn;
    destruct (uint_text_cases d) as [->|(k & d' & Hk & Htext & Hnb & Hacc & _)].
  - simpl. now rewrite Nat.add_0_r.
  - rewrite Hnb in Hn. discriminate.
  - discriminate.
  - rewrite Htext, Hacc. cbn [int_digits].
    replace (48 + k =? 95)%Z with false by (symmetry; apply Z.eqb_neq; lia).
    rewrite (digit_value_ascii k Hk).
    replace (10 * Z.pos acc + k)%Z
      with (Z.pos (Z.to_pos (10 * Z.pos acc + k))) at 1 by lia.
    rewrite (IH d') by lia. f_equal. f_equal. lia.
Qed.

Lemma int_digits_uint_zero (n : nat) :
  forall (d : Decimal.uint) (count : nat),
    Decimal.nb_digits d = n ->
    int_digits (str (NilEmpty.string_of_uint d)) 0 count
    = Some (Z.of_N (Pos.of_uint d), count + n).
Proof.
  induction n as [|n IH]; intros d count Hn;
    destruct (uint_text_cases d) as [->|(k & d' & Hk & Htext & Hnb & _ & Hof)].
  - simpl. now rewrite Nat.add_0_r.
  - rewrite Hnb in Hn. discriminate.
  - discriminate.
  - rewrite Htext, Hof. cbn [int_digits].
    replace (48 + k =? 95)%Z with false by (symmetry; apply Z.eqb_neq; lia).
    rewrite (digit_value_ascii k Hk).
    destruct (k =? 0)%Z eqn:Hk0.
    + apply Z.eqb_eq in Hk0. subst k. cbn [Z.mul Z.add].
      rewrite (IH d') by lia. f_equal. f_equal. lia.
    + apply Z.eqb_neq in Hk0.
      replace (10 * 0 + k)%Z with (Z.pos (Z.to_pos k)) by lia.
      rewrite (int_digits_uint_pos n d') by lia. f_equal. f_equal. lia.
Qed.

(** [int] on the decimal text of a number without sign. *)
Lemma int_unsigned_uint (d : Decimal.uint) :
  d <> Decimal.Nil ->
  int_unsigned (str (NilEmpty.string_of_uint d))
  = if Decimal.nb_digits d <=? MAX_STR_DIGITS
    then Some (Z.of_N (Pos.of_uint d)) else None.
Proof.
  intros Hd.
  destruct (uint_text_cases d) as [->|(k & d' & Hk & Htext & Hnb & _ & Hof)];
    [easy|].
  rewrite Htext, Hnb, Hof. cbn [int_unsigned].
  rewrite (digit_value_ascii k Hk).
  destruct (k =? 0)%Z eqn:Hk0.
  - apply Z.eqb_eq in Hk0. subst k.
    now rewrite (int_digits_uint_zero _ d' 1 eq_refl).
  - apply Z.eqb_neq in Hk0.
    replace k with (Z.pos (Z.to_pos k)) at 1 by lia.
    now rewrite (int_digits_uint_pos _ d' (Z.to_pos k) 1 eq_refl).
Qed.

Lemma str_of_int_pos (p : positive) :
  str_of_int (Z.pos p) = str (NilEmpty.string_of_uint (Pos.to_uint p)).
Proof.
  unfold str_of_int, Z.to_int, NilZero.string_of_int, NilZero.string_of_uint.
  pose proof (Unsigned.to_uint_nonnil p) as Hn.
  now destruct (Pos.to_uint p).
Qed.

Lemma str_of_int_neg (p : positive) :
  str_of_int (Z.neg p) = 45%Z :: str (NilEmpty.string_of_uint (Pos.to_uint p)).
Proof.
  unfold str_of_int, Z.to_int, NilZero.string_of_int, NilZero.string_of_uint.
  pose proof (Unsigned.to_uint_nonnil p) as Hn.
  now destruct (Pos.to_uint p).
Qed.

Lemma length_uint_text (d : Decimal.uint) :
  length (str (NilEmpty.string_of_uint d)) = Decimal.nb_digits d.
Proof.
  induction d; simpl; try reflexivity;
    unfold str in *; simpl; now rewrite IHd.
Qed.

Lemma is_space_false (c : Z) : (33 <= c <= 127)%Z -> is_space c = false.
Proof.
  intros Hc. unfold is_space, class_matches, SPACE_RANGES.
  cbn [existsb fst snd]. now rewrite !in_range_false by lia.
Qed.

Lemma is_int_space_is_space (c : Z) :
  is_int_space c = true -> is_space c = true.
Proof.
  unfold is_int_space. rewrite !orb_true_iff, andb_true_iff.
  intros [[Hr|He]|[Hs _]]; [| |exact Hs].
  - unfold in_range in Hr. apply andb_true_iff in Hr as [H1 H2].
    apply Z.leb_le in H1, H2. unfold is_space, class_matches, SPACE_RANGES.
    cbn [existsb fst snd]. now rewrite (in_range_true 9 13 c) by lia.
  - apply Z.eqb_eq in He. now subst c.
Qed.

Lemma lstrip_spaces (ws s : pystr) :
  Forall (fun c => is_space c = true) ws -> lstrip (ws ++ s) = lstrip s.
Proof. induction 1 as [|c ws Hc _ IH]; [reflexivity|]. simpl. now rewrite Hc. Qed.

Lemma lstrip_text (s : pystr) :
  Forall (fun c => is_space c = false) s -> lstrip s = s.
Proof. destruct 1 as [|c s Hc _]; [reflexivity|]. simpl. now rewrite Hc. Qed.

Lemma int_lstrip_text (s : pystr) :
  Forall (fun c => is_space c = false) s -> int_lstrip s = s.
Proof.
  destruct 1 as [|c s Hc _]; [reflexivity|]. simpl.
  destruct (is_int_space c) eqn:Hi; [|reflexivity].
  apply is_int_space_is_space in Hi. congruence.
Qed.

(** [strip] takes the white space off both ends of a text that has none
    inside. *)
Lemma strip_padded (ws1 core ws2 : pystr) :
  Forall (fun c => is_space c = true) ws1 ->
  Forall (fun c => is_space c = true) ws2 ->
  Forall (fun c => is_space c = false) core ->
  strip (ws1 ++ core ++ ws2) = core.
Proof.
  intros H1 H2 Hcore. unfold strip. rewrite (lstrip_spaces ws1 _ H1).
  destruct core as [|c core'].
  - simpl. rewrite <- (app_nil_r ws2), (lstrip_spaces ws2 [] H2). reflexivity.
  - assert (lstrip ((c :: core') ++ ws2) = (c :: core') ++ ws2) as ->
      by (simpl; now rewrite (Forall_inv Hcore)).
    rewrite rev_app_distr.
    rewrite (lstrip_spaces (rev ws2)) by now apply List.Forall_rev.
    rewrite lstrip_text by now apply List.Forall_rev.
    apply rev_involutive.
Qed.

Lemma uint_text_chars (d : Decimal.uint) :
  Forall (fun c => (48 <= c <= 57)%Z) (str (NilEmpty.string_of_uint d)).
Proof.
  induction d; unfold str in *; simpl; constructor; try lia; assumption.
Qed.

Lemma str_of_int_chars (n : Z) :
  Forall (fun c => is_space c = false) (str_of_int n).
Proof.
  assert (forall d, Forall (fun c => is_space c = false)
                      (str (NilEmpty.string_of_uint d))) as Hd.
  { intros d. eapply List.Forall_impl; [|apply uint_text_chars].
    intros c Hc. apply is_space_false. simpl in Hc. lia. }
  destruct n as [|p|p].
  - repeat constructor.
  - rewrite str_of_int_pos. apply Hd.
  - rewrite str_of_int_neg. constructor; [reflexivity|apply Hd].
Qed.

Lemma py_int_text (s : pystr) :
  Forall (fun c => is_space c = false) s ->
  py_int s
  = match s with
    | sign :: digits =>
        if (sign =? 43)%Z then int_unsigned digits
        else if (sign =? 45)%Z then option_map Z.opp (int_unsigned digits)
        else int_unsigned s
    | [] => None
    end.
Proof.
  intros Hs. unfold py_int.
  rewrite (int_lstrip_text s Hs).
  rewrite int_lstrip_text by now apply List.Forall_rev.
  now rewrite rev_involutive.
Qed.

(** [int] reads the text [str] gives for a number back as that number,
    unless the text is too long for it. *)
Lemma py_int_str_of_int (n : Z) :
  length (str_of_int (Z.abs n)) <= MAX_STR_DIGITS ->
  py_int (str_of_int n) = Some n.
Proof.
  intros Hlen. rewrite (py_int_text _ (str_of_int_chars n)).
  destruct n as [|p|p].
  - reflexivity.
  - change (Z.abs (Z.pos p)) with (Z.pos p) in Hlen.
    rewrite str_of_int_pos, length_uint_text in Hlen. rewrite str_of_int_pos.
    pose proof (Unsigned.to_uint_nonnil p) as Hnil.
    pose proof (int_unsigned_uint _ Hnil) as Hu.
    rewrite (proj2 (Nat.leb_le _ _) Hlen), Unsigned.of_to in Hu.
    destruct (uint_text_cases (Pos.to_uint p))
      as [?|(k & d' & Hk & Htext & _)]; [easy|].
    rewrite Htext in *.
    replace (48 + k =? 43)%Z with false by (symmetry; apply Z.eqb_neq; lia).
    replace (48 + k =? 45)%Z with false by (symmetry; apply Z.eqb_neq; lia).
    exact Hu.
  - change (Z.abs (Z.neg p)) with (Z.pos p) in Hlen.
    rewrite str_of_int_pos, length_uint_text in Hlen. rewrite str_of_int_neg.
    pose proof (Unsigned.to_uint_nonnil p) as Hnil.
    pose proof (int_unsigned_uint _ Hnil) as Hu.
    rewrite (proj2 (Nat.leb_le _ _) Hlen), Unsigned.of_to in Hu.
    cbn [Z.eqb Pos.eqb]. now rewrite Hu.
Qed.

Lemma read_back (n : Z) (ws1 ws2 : pystr) :
  Forall (fun c => is_space c = true) ws1 ->
  Forall (fun c => is_space c = true) ws2 ->
  length (str_of_int (Z.abs n)) <= MAX_STR_DIGITS ->
  read_last_completed (Text (ws1 ++ str_of_int n ++ ws2)) = n.
Proof.
  intros H1 H2 Hlen. unfold read_last_completed.
  rewrite (strip_padded ws1 _ ws2 H1 H2 (str_of_int_chars n)).
  now rewrite (py_int_str_of_int n Hlen).
Qed.

(** X1. A page number written by [write_last_completed] is read back by
    [read_last_completed], also when white space surrounds the number in
    the file, as long as the number has no more digits than [int] accepts. *)
Theorem checkpoint_round_trip (page_number : Z) (w : world)
    (before : checkpoint_file) (ws1 ws2 : pystr) :
  length (str_of_int (Z.abs page_number)) <= MAX_STR_DIGITS ->
  Forall (fun c => is_space c = true) ws1 ->
  Forall (fun c => is_space c = true) ws2 ->
  read_last_completed
    (checkpoint_after before (snd (write_last_completed page_number w)))
  = page_number /\
  read_last_completed (Text (ws1 ++ str_of_int page_number ++ ws2))
  = page_number.
Proof.
  intros Hlen H1 H2. split; [|now apply read_back].
  unfold checkpoint_after, write_last_completed. cbn [snd completed].
  pose proof (read_back page_number [] [] (List.Forall_nil _)
                (List.Forall_nil _) Hlen) as Hread.
  cbn [app] in Hread. now rewrite app_nil_r in Hread.
Qed.

(** Page 42, read back from a file with a space before the number and a
    line feed after it. *)
Lemma checkpoint_round_trip_witness :
  length (str_of_int (Z.abs 42)) <= MAX_STR_DIGITS /\
  read_last_completed (Text ([32%Z] ++ str_of_int 42 ++ [10%Z])) = 42%Z.
Proof.
  assert (length (str_of_int (Z.abs 42)) <= MAX_STR_DIGITS) as Hlen
    by (vm_compute; lia).
  split; [exact Hlen|].
  apply (checkpoint_round_trip 42 (initial_world ∅) Missing [32%Z] [10%Z] Hlen);
    repeat constructor.
Defined.

(** ** A checkpoint that is no number *)

Lemma int_digits_chars (n : nat) :
  forall (s : pystr) (value : Z) (count : nat),
    length s <= n -> int_digits s value count <> None ->
    Forall (fun c => c = 95%Z \/ digit_value c <> None) s.
Proof.
  induction n as [|n IH]; intros s value count Hlen Hsome.
  - destruct s; [constructor|simpl in Hlen; lia].
  - destruct s as [|c s]; [constructor|]. simpl in Hlen.
    cbn [int_digits] in Hsome. destruct (c =? 95)%Z eqn:Hc.
    + apply Z.eqb_eq in Hc. constructor; [now left|].
      destruct s as [|d s]; [constructor|].
      destruct (digit_value d) as [v|] eqn:Hd; [|congruence].
      constructor; [right; congruence|].
      eapply IH; [simpl in Hlen; lia|exact Hsome].
    + destruct (digit_value c) as [v|] eqn:Hd; [|congruence].
      constructor; [right; congruence|].
      eapply IH; [lia|exact Hsome].
Qed.

Lemma int_unsigned_chars (s : pystr) :
  int_unsigned s <> None ->
  Forall (fun c => c = 95%Z \/ digit_value c <> None) s.
Proof.
  destruct s as [|d s]; [constructor|]. cbn [int_unsigned].
  destruct (digit_value d) as [v|] eqn:Hd; [|congruence]. intros Hsome.
  constructor; [right; congruence|].
  apply (int_digits_chars (length s) s v 1); [lia|].
  destruct (int_digits s v 1); congruence.
Qed.

Lemma lstrip_chars (P : Z -> Prop) (s : pystr) :
  (forall c, is_space c = true -> P c) ->
  Forall P (lstrip s) -> Forall P s.
Proof.
  intros Hsp. induction s as [|c s IH]; [constructor|]. cbn [lstrip].
  destruct (is_space c) eqn:Hc; [|auto]. intros Hs.
  constructor; [now apply Hsp|now apply IH].
Qed.

Lemma int_lstrip_chars (P : Z -> Prop) (s : pystr) :
  (forall c, is_space c = true -> P c) ->
  Forall P (int_lstrip s) -> Forall P s.
Proof.
  intros Hsp. induction s as [|c s IH]; [constructor|]. cbn [int_lstrip].
  destruct (is_int_space c) eqn:Hc; [|auto]. intros Hs.
  constructor; [now apply Hsp, is_int_space_is_space|now apply IH].
Qed.

(** The characters of a text that [int] takes for a number. *)
Lemma py_int_chars (s : pystr) :
  py_int s <> None ->
  Forall (fun c => is_space c = true \/ c = 43%Z \/ c = 45%Z \/ c = 95%Z \/
                   digit_value c <> None) s.
Proof.
  intros Hsome.
  assert (forall t, int_unsigned t <> None ->
            Forall (fun c => is_space c = true \/ c = 43%Z \/ c = 45%Z \/
                             c = 95%Z \/ digit_value c <> None) t) as Hun.
  { intros t Ht. eapply List.Forall_impl; [|exact (int_unsigned_chars t Ht)].
    cbv beta. tauto. }
  apply int_lstrip_chars; [auto|].
  rewrite <- (rev_involutive (int_lstrip s)). apply List.Forall_rev.
  apply int_lstrip_chars; [auto|].
  rewrite <- (rev_involutive (int_lstrip _)). apply List.Forall_rev.
  unfold py_int in Hsome. cbv zeta in Hsome.
  destruct (rev (int_lstrip (rev (int_lstrip s)))) as [|sign digits] eqn:Ht;
    [constructor|].
  destruct (sign =? 43)%Z eqn:H43.
  { apply Z.eqb_eq in H43. constructor; [auto|]. now apply Hun. }
  destruct (sign =? 45)%Z eqn:H45.
  { apply Z.eqb_eq in H45. constructor; [auto|]. apply Hun.
    destruct (int_unsigned digits); [congruence|now destruct Hsome]. }
  now apply Hun.
Qed.

Lemma strip_blank (content : pystr) :
  Forall (fun c => is_space c = true) content -> strip content = [].
Proof.
  intros Hb. unfold strip.
  rewrite <- (app_nil_r content), (lstrip_spaces content [] Hb). reflexivity.
Qed.

(** X2. A checkpoint file that holds no number sends the crawl back to
    page 1: a file that is blank, or that has a character which is no
    white space, no decimal digit, no sign and no underscore. *)
Theorem invalid_checkpoint_starts_at_page_1 (content : pystr) :
  (Forall (fun c => is_space c = true) content \/
   exists c, In c content /\ is_space c = false /\ digit_value c = None /\
             c <> 43%Z /\ c <> 45%Z /\ c <> 95%Z) ->
  read_last_completed (Text content) = 1%Z.
Proof.
  intros [Hblank|(c & Hin & Hsp & Hd & H43 & H45 & H95)];
    unfold read_last_completed.
  - now rewrite (strip_blank content Hblank).
  - destruct (py_int (strip content)) as [n|] eqn:Hn; [|reflexivity].
    exfalso.
    assert (Forall (fun c => is_space c = true \/ c = 43%Z \/ c = 45%Z \/
                             c = 95%Z \/ digit_value c <> None) content)
      as Hall.
    { apply lstrip_chars; [auto|].
      rewrite <- (rev_involutive (lstrip content)). apply List.Forall_rev.
      apply lstrip_chars; [auto|].
      rewrite <- (rev_involutive (lstrip _)). apply List.Forall_rev.
      apply py_int_chars. fold (strip content). congruence. }
    rewrite List.Forall_forall in Hall. specialize (Hall c Hin).
    destruct Hall as [?|[?|[?|[?|?]]]]; congruence.
Qed.

(** A file that holds [page 7]. *)
Lemma invalid_checkpoint_starts_at_page_1_witness :
  In 112%Z (str "page 7") /\
  read_last_completed (Text (str "page 7")) = 1%Z.
Proof.
  split; [left; reflexivity|].
  apply (invalid_checkpoint_starts_at_page_1 (str "page 7")).
  right. exists 112%Z.
  split; [left; reflexivity|]. split; [reflexivity|]. split; [reflexivity|].
  split; [lia|]. split; lia.
Defined.



(** ** What a download does to the world *)

(** Membership in a set of files built with union, difference and
    singletons. *)
Ltac files_membership :=
  unfold not;
  rewrite ?elem_of_union, ?elem_of_difference, ?elem_of_union,
    ?elem_of_singleton;
  intuition congruence.

Section DownloadEffects.
Context (env : environment) (url : pystr).

Local Abbreviation temp_path := (temp_path_of env url).
Local Abbreviation final_path := (final_path_of url).
Local Abbreviation body := (download_attempt env url temp_path final_path).

(** One attempt pauses for 15 seconds exactly when [wget] ends in the
    status of a busy server, changes no file but those at the two paths of
    the download, and leaves the requests and the checkpoint alone.  Only
    a move that goes through touches the final path; a move that raises
    leaves the file at the temporary path. *)
Lemma download_attempt_effect (attempt : nat) (w : world) :
  let code := returncode (wget env (length (wget_runs w)) url) in
  let w1 := snd (body attempt w) in
  sleeps w1 = (if (code =? 8)%Z then [SERVICE_UNAVAILABLE_DELAY] else [])
              ++ sleeps w /\
  requests w1 = requests w /\ completed w1 = completed w /\
  (forall p, p <> temp_path -> p <> final_path ->
             (p ∈ files w1 <-> p ∈ files w)) /\
  (code = 0%Z -> target_ready env url = true -> temp_path <> final_path ->
   temp_path ∉ files w1) /\
  (forall p, p <> temp_path ->
     code <> 0%Z \/ target_ready env url = false ->
     (p ∈ files w1 <-> p ∈ files w)) /\
  (code = 0%Z -> target_ready env url = false -> temp_path ∈ files w1).
Proof.
  unfold download_attempt, bind, run_wget, move, target_ready.
  cbn [fst snd files].
  destruct (returncode _ =? 0)%Z eqn:H0.
  - apply Z.eqb_eq in H0. rewrite H0, orb_true_r. cbv iota. cbn [files].
    rewrite (bool_decide_eq_true_2 (temp_path ∈ {[temp_path]} ∪ files w))
      by set_solver.
    cbn [andb].
    destruct (bool_decide (temp_path = final_path) || has_directory env final_path);
      simpl;
      (split; [reflexivity|]; split; [reflexivity|]; split; [reflexivity|]).
    + split; [intros p Ht Hf; files_membership|].
      split; [intros _ _ Hne; files_membership|].
      split; [intros p _ [Hc|Hc]; [now destruct Hc|discriminate]|discriminate].
    + split; [intros p Ht Hf; files_membership|].
      split; [discriminate|].
      split; [intros p Ht _; files_membership|intros _ _; files_membership].
  - apply Z.eqb_neq in H0.
    destruct (returncode _ =? 8)%Z eqn:H8; simpl;
      (split; [reflexivity|]; split; [reflexivity|]; split; [reflexivity|];
       split; [intros p Ht Hf|split; [easy|split; [intros p Ht _|easy]]]);
      destruct (leaves_output _); simpl; files_membership.
Qed.

(** The loop over the attempts runs [wget] at most once per attempt,
    always for this url, pauses only for 15 seconds and at most once per
    run, and changes no file but those at the two paths. *)
Lemma download_loop_effect (attempts : list nat) :
  forall w : world,
    let w' := snd (for_each attempts body w) in
    exists k j : nat,
      k <= length attempts /\ j <= k /\
      wget_runs w' = repeat url k ++ wget_runs w /\
      sleeps w' = repeat SERVICE_UNAVAILABLE_DELAY j ++ sleeps w /\
      requests w' = requests w /\ completed w' = completed w /\
      (forall p, p <> temp_path -> p <> final_path ->
                 (p ∈ files w' <-> p ∈ files w)).
Proof.
  induction attempts as [|a rest IH]; intros w.
  - exists 0, 0. simpl. repeat split; auto.
  - destruct (download_attempt_cases env url a w) as (Hcases & Hruns & _).
    destruct (download_attempt_effect a w) as (Hsl & Hreq & Hco & Hfi & _).
    destruct (body a w) as [c w1] eqn:Hb.
    simpl in Hcases, Hruns, Hsl, Hreq, Hco, Hfi.
    assert (exists j, j <= 1 /\
              sleeps w1 = repeat SERVICE_UNAVAILABLE_DELAY j ++ sleeps w)
      as (j1 & Hj1 & Hsl1).
    { revert Hsl. destruct (_ =? 8)%Z; intros Hsl;
        [exists 1|exists 0]; (split; [lia|exact Hsl]). }
    destruct Hcases as [(_ & _ & -> & _)|[(_ & _ & -> & _)|
                        [(_ & ->)|(_ & _ & ->)]]].
    + rewrite (for_each_return body a rest w w1 Succeeded Hb). cbv zeta. simpl.
      exists 1, j1. rewrite Hruns, Hsl1. simpl.
      repeat split; auto; try lia; apply Hfi; auto.
    + rewrite (for_each_raise body a rest w w1 OSError Hb). cbv zeta. simpl.
      exists 1, j1. rewrite Hruns, Hsl1. simpl.
      repeat split; auto; try lia; apply Hfi; auto.
    + rewrite (for_each_next body a rest w w1 Hb).
      destruct (IH w1) as (k & j & Hk & Hj & Hr & Hs & Hq & Hc & Hf).
      cbv zeta. exists (S k), (j + j1).
      rewrite Hr, Hs, Hq, Hc, Hruns, Hsl1, Hreq, Hco.
      rewrite repeat_snoc_app, repeat_app, <- app_assoc.
      simpl. repeat split; auto; try lia.
      * intros Hin. apply (Hfi p); auto. apply (Hf p); auto.
      * intros Hin. apply (Hf p); auto. apply (Hfi p); auto.
    + rewrite (for_each_break body a rest w w1 Hb). cbv zeta. simpl.
      exists 1, j1. rewrite Hruns, Hsl1. simpl.
      repeat split; auto; try lia; apply Hfi; auto.
Qed.

(** A call runs [wget] at most three times, always for its url, and not
    at all when the file is there; it pauses only for 15 seconds, changes
    no file but those at its two paths, and leaves the requests, the
    checkpoint and the logs of the scheduler alone. *)
Lemma download_with_wget_effect (w : world) :
  let w' := snd (download_with_wget env url w) in
  exists k j : nat,
    k <= SERVICE_UNAVAILABLE_RETRIES + 1 /\ j <= k /\
    (final_path ∈ files w -> k = 0) /\
    wget_runs w' = repeat url k ++ wget_runs w /\
    sleeps w' = repeat SERVICE_UNAVAILABLE_DELAY j ++ sleeps w /\
    requests w' = requests w /\ completed w' = completed w /\
    (forall p, p <> temp_path -> p <> final_path ->
               (p ∈ files w' <-> p ∈ files w)).
Proof.
  destruct (decide (final_path ∈ files w)) as [Hin|Hout].
  - rewrite (download_with_wget_already env url w Hin). simpl.
    exists 0, 0. repeat split; auto.
  - unfold download_with_wget, bind, path_exists.
    fold final_path temp_path.
    rewrite (bool_decide_eq_false_2 _ Hout).
    destruct (download_loop_effect (seq 0 (SERVICE_UNAVAILABLE_RETRIES + 1)) w)
      as (k & j & Hk & Hj & Hr & Hs & Hq & Hc & Hf).
    rewrite length_seq in Hk.
    destruct (for_each _ _ w) as [[[o|]|e] w1]; simpl in Hr, Hs, Hq, Hc, Hf.
    + simpl. exists k, j. repeat split; auto; try easy; apply Hf; auto.
    + destruct (bool_decide (temp_path ∈ files w1)); simpl;
        exists k, j; repeat split; auto; try easy.
      * intros Hin. apply (Hf p); auto. revert Hin. files_membership.
      * intros Hin. apply (Hf p) in Hin; auto. files_membership.
      * apply Hf; auto.
      * apply Hf; auto.
    + simpl. exists k, j. repeat split; auto; try easy; apply Hf; auto.
Qed.
End DownloadEffects.

Section DownloadRuns.
Context (env : environment) (url : pystr).

Local Abbreviation temp_path := (temp_path_of env url).
Local Abbreviation final_path := (final_path_of url).
Local Abbreviation body := (download_attempt env url temp_path final_path).

(** The loop when, after [k] runs that end in the status of a busy
    server, a run ends well and the file can be moved: one pause per busy
    run, and the file is moved to its final path. *)
Lemma download_loop_succeeds (attempts : list nat) :
  forall (k : nat) (w : world),
    target_ready env url = true ->
    k < length attempts ->
    (forall j, j < k ->
       returncode (wget env (length (wget_runs w) + j) url) = 8%Z) ->
    returncode (wget env (length (wget_runs w) + k) url) = 0%Z ->
    let w' := snd (for_each attempts body w) in
    fst (for_each attempts body w) = Returns (Some Succeeded) /\
    wget_runs w' = repeat url (S k) ++ wget_runs w /\
    sleeps w' = repeat SERVICE_UNAVAILABLE_DELAY k ++ sleeps w /\
    final_path ∈ files w' /\
    (temp_path <> final_path -> temp_path ∉ files w').
Proof.
  induction attempts as [|a rest IH]; intros k w Hready Hk Hbusy Hok;
    [simpl in Hk; lia|].
  destruct (download_attempt_cases env url a w) as (Hcases & Hruns & _).
  destruct (download_attempt_effect env url a w) as (Hsl & _ & _ & _ & Hmv & _).
  destruct (body a w) as [c w1] eqn:Hb. simpl in Hcases, Hruns, Hsl, Hmv.
  destruct k as [|k].
  - rewrite Nat.add_0_r in Hok. rewrite Hok in Hsl, Hmv.
    destruct Hcases as [(_ & _ & -> & Hin)|[(_ & Hno & _)|
                        [(H8 & _)|(H0 & _)]]];
      [|congruence|rewrite Hok in H8; discriminate|easy].
    rewrite (for_each_return body a rest w w1 Succeeded Hb). cbv zeta. simpl.
    rewrite Hruns, Hsl. simpl.
    split; [reflexivity|]. split; [reflexivity|]. split; [reflexivity|].
    split; [exact Hin|exact (Hmv eq_refl Hready)].
  - assert (returncode (wget env (length (wget_runs w)) url) = 8%Z) as H8
      by (rewrite <- (Nat.add_0_r (length _)); apply Hbusy; lia).
    rewrite H8 in Hsl. change (8 =? 8)%Z with true in Hsl. cbn [app] in Hsl.
    destruct Hcases as [(H0 & _)|[(H0 & _)|[(_ & ->)|(_ & Hne & _)]]];
      [rewrite H8 in H0; discriminate|rewrite H8 in H0; discriminate| |easy].
    rewrite (for_each_next body a rest w w1 Hb).
    destruct (IH k w1 Hready) as (Hr & Hw & Hs & Hf & Ht).
    + simpl in Hk. lia.
    + intros j Hj. rewrite Hruns. simpl.
      rewrite <- Nat.add_succ_r. apply Hbusy. lia.
    + rewrite Hruns. simpl. now rewrite <- Nat.add_succ_r.
    + cbv zeta. rewrite Hr, Hw, Hs, Hruns, Hsl.
      rewrite !repeat_snoc_app. auto.
Qed.


(** The loop when every run ends in the status of a busy server: it ends
    without a result after one run and one pause per attempt. *)
Lemma download_loop_busy (attempts : list nat) :
  forall w : world,
    (forall j, j < length attempts ->
       returncode (wget env (length (wget_runs w) + j) url) = 8%Z) ->
    let w' := snd (for_each attempts body w) in
    fst (for_each attempts body w) = Returns None /\
    wget_runs w' = repeat url (length attempts) ++ wget_runs w /\
    sleeps w' = repeat SERVICE_UNAVAILABLE_DELAY (length attempts) ++ sleeps w.
Proof.
  induction attempts as [|a rest IH]; intros w Hbusy; [simpl; auto|].
  destruct (download_attempt_cases env url a w) as (Hcases & Hruns & _).
  destruct (download_attempt_effect env url a w) as (Hsl & _).
  destruct (body a w) as [c w1] eqn:Hb. simpl in Hcases, Hruns, Hsl.
  assert (returncode (wget env (length (wget_runs w)) url) = 8%Z) as H8
    by (rewrite <- (Nat.add_0_r (length _)); apply Hbusy; simpl; lia).
  rewrite H8 in Hsl. change (8 =? 8)%Z with true in Hsl. cbn [app] in Hsl.
  destruct Hcases as [(H0 & _)|[(H0 & _)|[(_ & ->)|(_ & Hne & _)]]];
    [rewrite H8 in H0; discriminate|rewrite H8 in H0; discriminate| |easy].
  rewrite (for_each_next body a rest w w1 Hb).
  destruct (IH w1) as (Hr & Hw & Hs).
  { intros j Hj. rewrite Hruns. simpl.
    rewrite <- Nat.add_succ_r. apply Hbusy. simpl. lia. }
  cbv zeta. rewrite Hr, Hw, Hs, Hruns, Hsl. cbn [length].
  rewrite !repeat_snoc_app. auto.
Qed.
End DownloadRuns.

Section DownloadCalls.
Context (env : environment) (url : pystr).

(** A call on a file that is not there, when the loop ends without a
    result: it returns [Failed], and but for the file at the temporary
    path the world is as the loop left it. *)
Lemma download_with_wget_exhausted (w w1 : world) :
  final_path_of url ∉ files w ->
  for_each (seq 0 (SERVICE_UNAVAILABLE_RETRIES + 1))
    (download_attempt env url (temp_path_of env url) (final_path_of url)) w
  = (Returns None, w1) ->
  let r := download_with_wget env url w in
  fst r = Returns Failed /\ wget_runs (snd r) = wget_runs w1 /\
  sleeps (snd r) = sleeps w1 /\ (temp_path_of env url ∉ files (snd r)).
Proof.
  intros Hout Hloop. unfold download_with_wget, bind, path_exists.
  fold (final_path_of url) (temp_path_of env url).
  rewrite (bool_decide_eq_false_2 _ Hout), Hloop. simpl.
  destruct (bool_decide (temp_path_of env url ∈ files w1)) eqn:Ht; simpl.
  - repeat split; auto. files_membership.
  - apply bool_decide_eq_false in Ht. auto.
Qed.

Lemma download_with_wget_result (w w1 : world) (o : download_outcome) :
  final_path_of url ∉ files w ->
  for_each (seq 0 (SERVICE_UNAVAILABLE_RETRIES + 1))
    (download_attempt env url (temp_path_of env url) (final_path_of url)) w
  = (Returns (Some o), w1) ->
  download_with_wget env url w = (Returns o, w1).
Proof.
  intros Hout Hloop. unfold download_with_wget, bind, path_exists.
  fold (final_path_of url) (temp_path_of env url).
  now rewrite (bool_decide_eq_false_2 _ Hout), Hloop.
Qed.


(** A call on a file that is not there, when after [k] busy runs a run
    ends well and the file can be moved. *)
Lemma download_with_wget_succeeds (w : world) (k : nat) :
  target_ready env url = true ->
  final_path_of url ∉ files w ->
  k < SERVICE_UNAVAILABLE_RETRIES + 1 ->
  (forall j, j < k ->
     returncode (wget env (length (wget_runs w) + j) url) = 8%Z) ->
  returncode (wget env (length (wget_runs w) + k) url) = 0%Z ->
  let w' := snd (download_with_wget env url w) in
  fst (download_with_wget env url w) = Returns Succeeded /\
  wget_runs w' = repeat url (S k) ++ wget_runs w /\
  sleeps w' = repeat SERVICE_UNAVAILABLE_DELAY k ++ sleeps w /\
  final_path_of url ∈ files w' /\
  (temp_path_of env url <> final_path_of url ->
   temp_path_of env url ∉ files w').
Proof.
  intros Hready Hout Hk Hbusy Hok.
  destruct (download_loop_succeeds env url
              (seq 0 (SERVICE_UNAVAILABLE_RETRIES + 1)) k w Hready)
    as (Hr & Hruns & Hsl & Hfin & Htmp); [now rewrite length_seq|auto..|].
  destruct (for_each _ _ w) as [o w1] eqn:Hloop.
  simpl in Hr, Hruns, Hsl, Hfin, Htmp. subst o.
  rewrite (download_with_wget_result w w1 Succeeded Hout Hloop). simpl. auto.
Qed.



(** X12. A server that is busy at every attempt: the call returns [Failed]
    after three runs of [wget] and three pauses of 15 seconds, the last
    one after the last run, and leaves no file at the temporary path. *)
Theorem busy_server_exhausts_retries (w : world) :
  final_path_of url ∉ files w ->
  (forall j, j < SERVICE_UNAVAILABLE_RETRIES + 1 ->
     returncode (wget env (length (wget_runs w) + j) url) = 8%Z) ->
  let w' := snd (download_with_wget env url w) in
  fst (download_with_wget env url w) = Returns Failed /\
  wget_runs w' = repeat url 3 ++ wget_runs w /\
  sleeps w' = repeat SERVICE_UNAVAILABLE_DELAY 3 ++ sleeps w /\
  (temp_path_of env url ∉ files w').
Proof.
  intros Hout Hbusy.
  destruct (download_loop_busy env url
              (seq 0 (SERVICE_UNAVAILABLE_RETRIES + 1)) w)
    as (Hr & Hruns & Hsl); [now rewrite length_seq|].
  rewrite length_seq in Hruns, Hsl.
  destruct (for_each _ _ w) as [o w1] eqn:Hloop.
  simpl in Hr, Hruns, Hsl. subst o.
  destruct (download_with_wget_exhausted w w1 Hout Hloop) as (Hf & Hw & Hs & Ht).
  cbv zeta. rewrite Hf, Hw, Hs, Hruns, Hsl. auto.
Qed.

End DownloadCalls.


(** A link whose name has an escaped slash: the download directory has no
    directory [downloads] inside, so the move raises and the file stays in
    the working directory. *)
Lemma nested_name_move_raises :
  friendly_filename NESTED_URL = str "downloads/a.pdf" /\
  final_path_of NESTED_URL = str "downloads/downloads/a.pdf" /\
  target_ready unreachable NESTED_URL = false /\
  fst (download_with_wget unreachable NESTED_URL (initial_world ∅))
  = Raises OSError /\
  files (snd (download_with_wget unreachable NESTED_URL (initial_world ∅)))
  = {[ str "/srv/libscrape/downloads/a.pdf" ]}.
Proof. repeat split; vm_compute; reflexivity. Qed.

(** A server that is busy at every run. *)
Lemma busy_server_exhausts_retries_witness :
  (final_path_of BOOK_URL ∉ files (initial_world ∅)) /\
  fst (download_with_wget always_busy BOOK_URL (initial_world ∅))
  = Returns Failed /\
  wget_runs (snd (download_with_wget always_busy BOOK_URL (initial_world ∅)))
  = [BOOK_URL; BOOK_URL; BOOK_URL].
Proof.
  assert (final_path_of BOOK_URL ∉ files (initial_world ∅)) as Hout
    by (simpl; apply not_elem_of_empty).
  split; [exact Hout|].
  destruct (busy_server_exhausts_retries always_busy BOOK_URL (initial_world ∅)
              Hout) as (Hf & Hr & _); [intros j Hj; reflexivity|].
  split; [exact Hf|exact Hr].
Defined.


(** ** What the scheduler does to the world *)

Section SchedulerEffects.
Context `{PyRuntime} (env : environment).

Lemma submit_effect (link : pystr) (w : world) :
  let w' := snd (submit env link w) in
  fst (submit env link w) = Returns tt /\
  (exists k, wget_runs w' = repeat link k ++ wget_runs w) /\
  requests w' = requests w /\ completed w' = completed w.
Proof.
  unfold submit.
  match goal with
  | |- context [download_with_wget env link ?w0] =>
      destruct (download_with_wget_effect env link w0)
        as (k & j & _ & _ & _ & Hr & _ & Hq & Hc & _);
      destruct (download_with_wget env link w0) as [o w1]
  end.
  simpl in *. split; [reflexivity|]. split; [now exists k|]. auto.
Qed.

Lemma executor_map_effect (links : list pystr) :
  forall w : world,
    let w' := snd (executor_map env links w) in
    (exists new, wget_runs w' = new ++ wget_runs w /\
                 Forall (fun u => In u links) new) /\
    requests w' = requests w /\ completed w' = completed w.
Proof.
  induction links as [|link rest IH]; intros w.
  - simpl. split; [|auto]. now exists [].
  - cbn [executor_map]. unfold bind.
    destruct (submit_effect link w) as (Hf & (k & Hr) & Hq & Hc).
    destruct (submit env link w) as [o w1]. simpl in Hf, Hr, Hq, Hc. subst o.
    destruct (IH w1) as ((new & Hn & Hall) & Hq' & Hc').
    cbv zeta. rewrite Hq', Hc', Hq, Hc. split; [|auto].
    exists (new ++ repeat link k). rewrite Hn, Hr, <- app_assoc.
    split; [reflexivity|]. apply Forall_app. split.
    + eapply List.Forall_impl; [|exact Hall]. intros u Hu. now right.
    + apply List.Forall_forall. intros u Hu. apply repeat_spec in Hu. now left.
Qed.

Lemma filter_links_effect (links : list pystr) :
  forall w : world,
    let w' := snd (filter_links links w) in
    wget_runs w' = wget_runs w /\ requests w' = requests w /\
    completed w' = completed w /\ sleeps w' = sleeps w /\
    files w' = files w.
Proof.
  induction links as [|link rest IH]; intros w; [simpl; auto|].
  cbn [filter_links]. unfold bind, classify.
  destruct (is_english_file_returns (friendly_filename link)) as [b Hb].
  rewrite Hb. cbn beta iota.
  match goal with
  | |- context [filter_links rest ?w1] =>
      destruct (IH w1) as (Hw & Hq & Hc & Hs & Hf);
      destruct (filter_links rest w1) as [[o|e] w2]
  end; simpl in *; auto.
Qed.

Lemma process_links_effect (links : list pystr) (w : world) :
  let w' := snd (process_links env links w) in
  fst (process_links env links w) = Returns tt /\
  (exists new, wget_runs w' = new ++ wget_runs w /\
               Forall (fun u => In u links /\ accepted u = true) new) /\
  requests w' = requests w /\ completed w' = completed w.
Proof.
  unfold process_links, bind.
  destruct (filter_links_spec (unique links) w) as (Hf & _).
  destruct (filter_links_effect (unique links) w) as (Hw & Hq & Hc & _).
  destruct (filter_links (unique links) w) as [o w1].
  simpl in Hf, Hw, Hq, Hc. subst o.
  assert (forall u, In u (List.filter accepted (unique links)) ->
                    In u links /\ accepted u = true) as Hmem.
  { intros u Hu. apply filter_In in Hu as [Hu Ha]. split; [|exact Ha].
    now apply (proj2 (unique_spec links)). }
  destruct (List.filter accepted (unique links)) as [|l ls] eqn:Hfl.
  - simpl. rewrite Hw, Hq, Hc. split; [reflexivity|]. split; [|auto].
    now exists [].
  - destruct (executor_map_spec env (l :: ls) w1) as (He & _).
    destruct (executor_map_effect (l :: ls) w1) as ((new & Hn & Hall) & Hq' & Hc').
    cbv zeta. rewrite He, Hq', Hc', Hq, Hc. split; [reflexivity|].
    split; [|auto]. exists new. rewrite Hn, Hw. split; [reflexivity|].
    eapply List.Forall_impl; [|exact Hall]. intros u Hu. now apply Hmem.
Qed.

(** X14. The scheduler never fails, runs [wget] only for links of the page
    that the classifier accepts, and leaves the requests and the
    checkpoint alone. *)
Theorem only_accepted_links_downloaded (links : list pystr) (w : world) :
  let w' := snd (process_links env links w) in
  fst (process_links env links w) = Returns tt /\
  (exists new, wget_runs w' = new ++ wget_runs w /\
               Forall (fun u => In u links /\ accepted u = true) new) /\
  requests w' = requests w /\ completed w' = completed w.
Proof. apply process_links_effect. Qed.
End SchedulerEffects.

(** ** Busy and quiet sites *)

Section FetchRuns.
Context `{PyRuntime} (env : environment) (url : pystr).



(** The loop when no reply is a 503: it never pauses. *)
Lemma fetch_loop_quiet (attempts : list nat) :
  forall w : world,
    (forall j, j < length attempts ->
       is_busy (http_get env (length (requests w) + j) url) = false) ->
    sleeps (snd (for_each attempts (fetch_attempt env url) w)) = sleeps w.
Proof.
  induction attempts as [|a rest IH]; intros w Hquiet; [reflexivity|].
  assert (is_busy (http_get env (length (requests w)) url) = false) as Hb0
    by (rewrite <- (Nat.add_0_r (length _)); apply Hquiet; simpl; lia).
  destruct (fetch_attempt_effect env url a w) as (Hreq & Hsl & _).
  destruct (fetch_attempt env url a w) as [[c|e] w1] eqn:Hfa;
    simpl in Hreq, Hsl; rewrite Hb0 in Hsl; cbn [app] in Hsl.
  - destruct c as [| |links].
    + rewrite (for_each_next _ a rest w w1 Hfa), IH; [exact Hsl|].
      intros j Hj. rewrite Hreq. simpl.
      rewrite <- Nat.add_succ_r. apply Hquiet. simpl. lia.
    + now rewrite (for_each_break _ a rest w w1 Hfa).
    + now rewrite (for_each_return _ a rest w w1 links Hfa).
  - now rewrite (for_each_raise _ a rest w w1 e Hfa).
Qed.

Lemma select_links_returns (hrefs : list pystr) :
  (forall href, In href hrefs -> urlparse_netloc href <> None) ->
  exists links, select_links hrefs = Returns links.
Proof.
  induction hrefs as [|href rest IH]; intros Hparse; [now exists []|].
  destruct IH as [links Hl]; [intros h Hh; apply Hparse; now right|].
  simpl. rewrite Hl. unfold keeps_link.
  destruct (endswith_any _ _); [|eauto].
  destruct (urlparse_netloc href) eqn:Hn; [eauto|].
  exfalso. apply (Hparse href); [now left|exact Hn].
Qed.

Lemma served_response (reply : http_reply) (hrefs : list pystr) :
  served reply = Some hrefs ->
  exists status_code, reply = Response status_code hrefs.
Proof.
  destruct reply as [code hs|]; [|discriminate]. simpl.
  destruct (_ || _); [discriminate|]. intros [= ->]. now exists code.
Qed.

(** On a site whose links all parse, the loop never raises. *)
Lemma fetch_loop_returns (attempts : list nat) :
  hrefs_parse env ->
  forall w : world,
    exists r, fst (for_each attempts (fetch_attempt env url) w) = Returns r.
Proof.
  intros Hparse. induction attempts as [|a rest IH]; intros w;
    [now exists None|].
  destruct (fetch_attempt_answer env url a w)
    as [(_ & Ha)|(_ & [(links & Ha)|(hrefs & e & Hs & Hsel & _)])].
  - destruct (fetch_attempt env url a w) as [c w1] eqn:Hfa.
    simpl in Ha. subst c. rewrite (for_each_next _ a rest w w1 Hfa). apply IH.
  - destruct (fetch_attempt env url a w) as [c w1] eqn:Hfa.
    simpl in Ha. subst c. rewrite (for_each_return _ a rest w w1 links Hfa).
    now exists (Some links).
  - exfalso. apply served_response in Hs as (code & Hs).
    destruct (select_links_returns hrefs) as (links & Hl);
      [intros href Hin; exact (Hparse _ _ _ _ _ Hs Hin)|].
    rewrite Hl in Hsel. discriminate.
Qed.
End FetchRuns.

Section FetchPage.
Context `{PyRuntime} (env : environment) (page_number : Z).

(** [fetch_page_links] leaves the world as its loop does, and returns the
    links of the loop, or no link when the loop ends without a result. *)
Lemma fetch_page_links_loop (w : world) :
  let loop := for_each (seq 0 (SERVICE_UNAVAILABLE_RETRIES + 1))
                (fetch_attempt env (page_url page_number)) w in
  snd (fetch_page_links env page_number w) = snd loop /\
  fst (fetch_page_links env page_number w)
  = match fst loop with
    | Returns (Some links) => Returns links
    | Returns None => Returns []
    | Raises e => Raises e
    end.
Proof.
  unfold fetch_page_links, bind.
  now destruct (for_each _ _ w) as [[[links|]|e] w1].
Qed.

Lemma fetch_page_links_effect (w : world) :
  let w' := snd (fetch_page_links env page_number w) in
  exists k j : nat,
    1 <= k <= SERVICE_UNAVAILABLE_RETRIES + 1 /\ j <= k /\
    requests w' = repeat (page_url page_number) k ++ requests w /\
    sleeps w' = repeat SERVICE_UNAVAILABLE_DELAY j ++ sleeps w /\
    wget_runs w' = wget_runs w /\ files w' = files w /\
    completed w' = completed w /\ submitted w' = submitted w /\
    classified w' = classified w.
Proof.
  destruct (fetch_page_links_loop w) as (-> & _).
  destruct (fetch_loop_effect env (page_url page_number)
              (seq 0 (SERVICE_UNAVAILABLE_RETRIES + 1)) w)
    as (k & j & Hk & H1 & Hj & Hrest).
  rewrite length_seq in Hk. exists k, j.
  split; [split; [now apply H1|exact Hk]|]. now split.
Qed.

Lemma fetch_page_links_returns (w : world) :
  hrefs_parse env ->
  exists links, fst (fetch_page_links env page_number w) = Returns links.
Proof.
  intros Hparse. destruct (fetch_page_links_loop w) as (_ & ->).
  destruct (fetch_loop_returns env (page_url page_number)
              (seq 0 (SERVICE_UNAVAILABLE_RETRIES + 1)) Hparse w) as [[l|] ->];
    eauto.
Qed.

(** X8. Whatever the site answers, fetching a page makes between one and
    three requests, all for the address of the page; it pauses only for
    15 seconds, at most once per request; it runs no [wget] and leaves the
    files and the checkpoint alone. *)
Theorem fetch_only_requests_and_pauses (w : world) :
  let w' := snd (fetch_page_links env page_number w) in
  exists k j : nat,
    1 <= k <= SERVICE_UNAVAILABLE_RETRIES + 1 /\ j <= k /\
    requests w' = repeat (page_url page_number) k ++ requests w /\
    sleeps w' = repeat SERVICE_UNAVAILABLE_DELAY j ++ sleeps w /\
    wget_runs w' = wget_runs w /\ files w' = files w /\
    completed w' = completed w.
Proof.
  destruct (fetch_page_links_effect w)
    as (k & j & Hk & Hj & Hr & Hs & Hw & Hf & Hc & _).
  exists k, j. auto 10.
Qed.


(** X10. When none of the replies is a 503, fetching a page never pauses:
    an attempt that ends in an exception or in another error status is
    followed at once by the next. *)
Theorem no_pause_without_503 (w : world) :
  (forall j, j < SERVICE_UNAVAILABLE_RETRIES + 1 ->
     is_busy (http_get env (length (requests w) + j) (page_url page_number))
     = false) ->
  sleeps (snd (fetch_page_links env page_number w)) = sleeps w.
Proof.
  intros Hquiet. destruct (fetch_page_links_loop w) as (-> & _).
  apply fetch_loop_quiet. now rewrite length_seq.
Qed.
End FetchPage.


(** Page 7 of a site that never answers. *)
Lemma no_pause_without_503_witness :
  is_busy (http_get unreachable 0 (page_url 7)) = false /\
  sleeps (snd (@fetch_page_links cpython_fragment unreachable 7 (initial_world ∅)))
  = [].
Proof.
  split; [reflexivity|].
  apply (@no_pause_without_503 cpython_fragment unreachable 7 (initial_world ∅)).
  intros j Hj. reflexivity.
Defined.

(** ** Pages and ranges *)

Section PageAndRange.
Context `{PyRuntime} (env : environment).

(** The loop of [process_page_with_retries] is left in its first round:
    the page is fetched once, its links are handed to the scheduler when
    there are some, and the answer is [True]. *)
Lemma process_page_cases (page_number : Z) (w : world) :
  process_page_with_retries env page_number w
  = match fetch_page_links env page_number w with
    | (Returns [], w1) => (Returns true, w1)
    | (Returns ((_ :: _) as links), w1) =>
        (Returns true, snd (process_links env links w1))
    | (Raises e, w1) => (Raises e, w1)
    end.
Proof.
  unfold process_page_with_retries, MAX_RETRIES. cbn [seq for_each].
  unfold page_attempt, bind.
  destruct (fetch_page_links env page_number w) as [[[|l ls]|e] w1];
    [reflexivity| |reflexivity].
  destruct (process_links_effect env (l :: ls) w1) as (Hf & _).
  destruct (process_links env (l :: ls) w1) as [o w2].
  simpl in Hf. now subst o.
Qed.

Lemma process_page_effect (page_number : Z) (w : world) :
  let r := process_page_with_retries env page_number w in
  (fst r = Returns true \/ exists e, fst r = Raises e) /\
  (exists k, 1 <= k <= SERVICE_UNAVAILABLE_RETRIES + 1 /\
             requests (snd r) = repeat (page_url page_number) k ++ requests w) /\
  completed (snd r) = completed w.
Proof.
  rewrite process_page_cases.
  destruct (fetch_page_links_effect env page_number w)
    as (k & j & Hk & _ & Hr & _ & _ & _ & Hc & _).
  destruct (fetch_page_links env page_number w) as [[[|l ls]|e] w1];
    simpl in Hr, Hc; cbv zeta; cbn [fst snd].
  - split; [now left|]. split; [now exists k|exact Hc].
  - destruct (process_links_effect env (l :: ls) w1) as (_ & _ & Hq & Hc').
    cbv zeta in Hq, Hc'. rewrite Hq, Hc'.
    split; [now left|]. split; [now exists k|exact Hc].
  - split; [right; now exists e|]. split; [now exists k|exact Hc].
Qed.

Lemma process_page_returns (page_number : Z) (w : world) :
  hrefs_parse env ->
  fst (process_page_with_retries env page_number w) = Returns true.
Proof.
  intros Hparse. rewrite process_page_cases.
  destruct (fetch_page_links_returns env page_number w Hparse) as (links & Hl).
  destruct (fetch_page_links env page_number w) as [o w1]. simpl in Hl.
  subst o. now destruct links.
Qed.

(** X7. A page is never reported as failed: the function answers [True] or
    is left by an exception of the parser, and [False] is out of reach.
    The page is fetched once, with at most three requests, however many
    retries [MAX_RETRIES] allows, and the checkpoint is left alone. *)
Theorem page_never_reported_failed (page_number : Z) (w : world) :
  let r := process_page_with_retries env page_number w in
  fst r <> Returns false /\
  (exists k, 1 <= k <= SERVICE_UNAVAILABLE_RETRIES + 1 /\
             requests (snd r) = repeat (page_url page_number) k ++ requests w) /\
  completed (snd r) = completed w.
Proof.
  destruct (process_page_effect page_number w) as (Hf & Hq & Hc).
  split; [|now split].
  destruct Hf as [-> | (e & ->)]; discriminate.
Qed.

(** One round of the loop of [main] on a site whose links all parse. *)
Lemma main_step_effect (page_number : Z) (w : world) :
  hrefs_parse env ->
  let r := main_step env page_number w in
  fst r = Returns Next /\
  completed (snd r) = page_number :: completed w /\
  (exists k, 1 <= k <= SERVICE_UNAVAILABLE_RETRIES + 1 /\
             requests (snd r) = repeat (page_url page_number) k ++ requests w).
Proof.
  intros Hparse. unfold main_step, bind.
  pose proof (process_page_returns page_number w Hparse) as Hf.
  destruct (process_page_effect page_number w) as (_ & Hq & Hc).
  destruct (process_page_with_retries env page_number w) as [o w1].
  simpl in Hf, Hq, Hc. subst o. simpl. now rewrite Hc.
Qed.

(** One round of the loop of [main] when the parser raises. *)
Lemma main_step_raises (page_number : Z) (w w1 : world) (e : exn) :
  process_page_with_retries env page_number w = (Raises e, w1) ->
  main_step env page_number w = (Raises e, w1).
Proof. intros Hp. unfold main_step, bind. now rewrite Hp. Qed.

Lemma main_loop_effect (pages : list Z) :
  hrefs_parse env ->
  forall w : world,
    let r := for_each pages (main_step env) w in
    fst r = Returns None /\ completed (snd r) = rev pages ++ completed w /\
    exists new, requests (snd r) = new ++ requests w /\
                length pages <= length new <= 3 * length pages.
Proof.
  intros Hparse. induction pages as [|p rest IH]; intros w.
  - cbn [for_each]. unfold ret. cbn [fst snd rev app length].
    split; [reflexivity|]. split; [reflexivity|]. exists [].
    split; [reflexivity|simpl; lia].
  - destruct (main_step_effect p w Hparse) as (Hf & Hc & k & Hk & Hq).
    destruct (main_step env p w) as [o w1] eqn:Hstep.
    simpl in Hf, Hc, Hq. subst o.
    rewrite (for_each_next _ p rest w w1 Hstep).
    destruct (IH w1) as (Hf' & Hc' & new & Hq' & Hn).
    cbv zeta. rewrite Hf', Hc', Hc. split; [reflexivity|].
    split; [simpl; now rewrite <- app_assoc|].
    exists (new ++ repeat (page_url p) k).
    rewrite Hq', Hq, <- app_assoc. split; [reflexivity|].
    rewrite length_app, repeat_length.
    unfold SERVICE_UNAVAILABLE_RETRIES in Hk. simpl length. lia.
Qed.
End PageAndRange.

Lemma page_range_last (s e : Z) :
  (s <= e)%Z -> page_range s e = page_range s (e - 1) ++ [e].
Proof.
  intros Hse. unfold page_range.
  replace (e + 1 - s)%Z with ((e - 1 + 1 - s) + 1)%Z by lia.
  rewrite seqZ_app by lia. f_equal.
  rewrite seqZ_cons by lia. rewrite seqZ_nil by lia. f_equal. lia.
Qed.

Section Crawl.
Context `{PyRuntime} (env : environment).

Lemma main_effect (start_page end_page : Z) (w : world) :
  hrefs_parse env ->
  let r := main env start_page end_page w in
  fst r = Returns tt /\
  completed (snd r) = rev (page_range start_page end_page) ++ completed w /\
  exists new, requests (snd r) = new ++ requests w /\
              length (page_range start_page end_page) <= length new
              <= 3 * length (page_range start_page end_page).
Proof.
  intros Hparse. unfold main, bind.
  destruct (main_loop_effect env (page_range start_page end_page) Hparse w)
    as (Hf & Hrest).
  destruct (for_each _ _ w) as [o w1]. simpl in Hf, Hrest. subst o.
  now simpl.
Qed.

(** X4. On a site whose links all parse, the crawl of a range of pages
    ends without an error and has written every page number of the range
    to the checkpoint, in order, whatever the replies of the site and the
    results of the downloads were; each page costs between one and three
    requests. *)
Theorem every_page_of_range_checkpointed (start_page end_page : Z)
    (w : world) :
  hrefs_parse env ->
  let r := main env start_page end_page w in
  fst r = Returns tt /\
  completed (snd r) = rev (page_range start_page end_page) ++ completed w /\
  exists new, requests (snd r) = new ++ requests w /\
              length (page_range start_page end_page) <= length new
              <= 3 * length (page_range start_page end_page).
Proof. apply main_effect. Qed.

(** X5. With an end page below the start page the crawl does nothing: no
    request, no pause, and the checkpoint is not written. *)
Theorem empty_range_does_nothing (start_page end_page : Z) (w : world) :
  (end_page < start_page)%Z ->
  main env start_page end_page w = (Returns tt, w).
Proof.
  intros Hlt. unfold main, page_range. now rewrite seqZ_nil by lia.
Qed.

(** X3. After the crawl of a range that is not empty, a run without
    [--start], or with [--start 0], starts again at the end page of the
    range: the page that was completed last is crawled once more. *)
Theorem rerun_starts_at_last_page (start_page end_page : Z) (w : world)
    (before : checkpoint_file) :
  hrefs_parse env ->
  (start_page <= end_page)%Z ->
  length (str_of_int (Z.abs end_page)) <= MAX_STR_DIGITS ->
  let file := checkpoint_after before (snd (main env start_page end_page w)) in
  start_page_of None file = end_page /\
  start_page_of (Some 0%Z) file = end_page.
Proof.
  intros Hparse Hse Hlen.
  destruct (main_effect start_page end_page w Hparse) as (_ & Hc & _).
  cbv zeta in Hc. cbv zeta. unfold checkpoint_after. rewrite Hc.
  rewrite (page_range_last _ _ Hse), rev_app_distr. cbn [rev app].
  unfold start_page_of. cbn [Z.eqb].
  pose proof (read_back end_page [] [] (List.Forall_nil _) (List.Forall_nil _) Hlen)
    as Hread.
  cbn [app] in Hread. rewrite app_nil_r in Hread. now rewrite Hread.
Qed.

(** X6. A link that makes [urlparse] raise ends the whole crawl: when the
    first page of the range is served with such a link, [main] is left by
    the exception after that one request, and no page is written to the
    checkpoint. *)
Theorem parser_error_ends_the_crawl (start_page end_page : Z) (w : world)
    (hrefs : list pystr) (e : exn) :
  (start_page <= end_page)%Z ->
  served (http_get env (length (requests w)) (page_url start_page))
  = Some hrefs ->
  select_links hrefs = Raises e ->
  let r := main env start_page end_page w in
  fst r = Raises e /\
  requests (snd r) = page_url start_page :: requests w /\
  sleeps (snd r) = sleeps w /\
  completed (snd r) = completed w.
Proof.
  intros Hse Hserved Hsel.
  pose proof (fetch_attempt_served env (page_url start_page) 0 w hrefs Hserved)
    as Hf.
  rewrite Hsel in Hf.
  destruct (fetch_attempt_effect env (page_url start_page) 0 w)
    as (Hq & Hs & _ & _ & Hc & _).
  assert (is_busy (http_get env (length (requests w)) (page_url start_page))
          = false) as Hquiet.
  { destruct (served_response _ _ Hserved) as (code & Hr).
    rewrite Hr in Hserved |- *.
    simpl in Hserved |- *. destruct (code =? 503)%Z; [|reflexivity].
    rewrite orb_true_r in Hserved. discriminate. }
  destruct (fetch_attempt env (page_url start_page) 0 w) as [o w1] eqn:Hfa.
  simpl in Hf, Hq, Hs, Hc. subst o. rewrite Hquiet in Hs. cbn [app] in Hs.
  assert (fetch_page_links env start_page w = (Raises e, w1)) as Hfetch.
  { unfold fetch_page_links, bind.
    change (seq 0 (SERVICE_UNAVAILABLE_RETRIES + 1)) with [0; 1; 2].
    now rewrite (for_each_raise _ 0 [1; 2] w w1 e Hfa). }
  assert (main_step env start_page w = (Raises e, w1)) as Hstep.
  { apply main_step_raises. rewrite process_page_cases. now rewrite Hfetch. }
  unfold main, bind, page_range.
  rewrite seqZ_cons by lia.
  rewrite (for_each_raise _ start_page _ w w1 e Hstep). simpl. auto.
Qed.
End Crawl.

(** The two links of [lookalike_site] go through [urlparse]. *)
Lemma lookalike_site_parses : @hrefs_parse cpython_fragment lookalike_site.
Proof.
  intros n url status_code hrefs href Hreply Hin.
  injection Hreply as _ <-.
  destruct Hin as [<-|[<-|[]]]; vm_compute; discriminate.
Qed.

(** The pages 1 to 3 of a site that serves two links on every page. *)
Lemma every_page_of_range_checkpointed_witness :
  @hrefs_parse cpython_fragment lookalike_site /\
  completed (snd (@main cpython_fragment lookalike_site 1 3 (initial_world ∅)))
  = [3; 2; 1]%Z.
Proof.
  split; [exact lookalike_site_parses|].
  apply (@every_page_of_range_checkpointed cpython_fragment lookalike_site 1 3
           (initial_world ∅) lookalike_site_parses).
Defined.

(** The range from page 5 to page 4. *)
Lemma empty_range_does_nothing_witness :
  (4 < 5)%Z /\
  @main cpython_fragment unreachable 5 4 (initial_world ∅)
  = (Returns tt, initial_world ∅).
Proof.
  split; [lia|].
  apply (@empty_range_does_nothing cpython_fragment unreachable 5 4). lia.
Defined.

(** After the crawl of the pages 1 to 3 the next run starts at page 3. *)
Lemma rerun_starts_at_last_page_witness :
  @hrefs_parse cpython_fragment lookalike_site /\ (1 <= 3)%Z /\
  start_page_of None
    (checkpoint_after Missing
       (snd (@main cpython_fragment lookalike_site 1 3 (initial_world ∅))))
  = 3%Z.
Proof.
  split; [exact lookalike_site_parses|]. split; [lia|].
  apply (@rerun_starts_at_last_page cpython_fragment lookalike_site 1 3
           (initial_world ∅) Missing lookalike_site_parses).
  - lia.
  - vm_compute. lia.
Defined.

(** A site whose pages have a link with an open bracket in its netloc. *)
Lemma parser_error_ends_the_crawl_witness :
  @select_links cpython_fragment [BRACKET_HREF] = Raises ValueError /\
  fst (@main cpython_fragment bracket_site 1 3 (initial_world ∅))
  = Raises ValueError /\
  completed (snd (@main cpython_fragment bracket_site 1 3 (initial_world ∅)))
  = [].
Proof.
  assert (@select_links cpython_fragment [BRACKET_HREF] = Raises ValueError)
    as Hsel by (vm_compute; reflexivity).
  split; [exact Hsel|].
  destruct (@parser_error_ends_the_crawl cpython_fragment bracket_site 1 3
              (initial_world ∅) [BRACKET_HREF] ValueError)
    as (Hf & _ & _ & Hc); [lia|reflexivity|exact Hsel|].
  split; [exact Hf|exact Hc].
Defined.

(** ** Tokens *)

Section Tokens.
Context `{PyRuntime}.

Lemma findall_words_from_run (a b : pystr) :
  Forall (fun c => is_word c = true) a ->
  forall cur, findall_words_from cur (a ++ b) = findall_words_from (rev a ++ cur) b.
Proof.
  induction 1 as [|c a Hc _ IH]; intros cur; [reflexivity|].
  cbn [app findall_words_from rev]. rewrite Hc, IH, <- app_assoc. reflexivity.
Qed.

Lemma findall_words_from_sep (a b : pystr) (sep : Z) :
  is_word sep = false ->
  forall cur,
    findall_words_from cur (a ++ sep :: b)
    = findall_words_from cur a ++ findall_words b.
Proof.
  intros Hsep. induction a as [|c a IH]; intros cur.
  - cbn [app findall_words_from]. rewrite Hsep. now destruct cur.
  - cbn [app findall_words_from]. destruct (is_word c); [apply IH|].
    destruct cur; [apply IH|]. now rewrite IH.
Qed.

Lemma findall_words_run (a : pystr) :
  a <> [] -> Forall (fun c => is_word c = true) a -> findall_words a = [a].
Proof.
  intros Hne Ha. unfold findall_words.
  rewrite <- (app_nil_r a) at 1. rewrite (findall_words_from_run a [] Ha).
  rewrite app_nil_r. cbn [findall_words_from].
  destruct (rev a) as [|c r] eqn:Hr.
  - apply (f_equal (@rev Z)) in Hr. rewrite rev_involutive in Hr.
    now destruct Hne.
  - now rewrite <- Hr, rev_involutive.
Qed.

(** X15. The tokens of a name are its runs of word characters: a name of
    word characters only is one token, and a character that is no word
    character separates the tokens of the text before it from the tokens
    of the text after it. *)
Theorem tokens_are_runs_of_word_characters :
  (forall a : pystr,
     a <> [] -> Forall (fun c => is_word c = true) a ->
     findall_words a = [a]) /\
  (forall (a b : pystr) (sep : Z),
     is_word sep = false ->
     findall_words (a ++ sep :: b) = findall_words a ++ findall_words b).
Proof.
  split; [apply findall_words_run|].
  intros a b sep Hsep. now apply findall_words_from_sep.
Qed.

(** X16. A stopword is found only as a whole token.  A name of two runs of
    word characters with one separator between them, with no code point
    of the scripts, is accepted when neither run as a whole is a stopword,
    whatever the runs have inside: letters, digits and underscores join
    into one token. *)
Theorem stopword_inside_token_not_found (filename a b : pystr) (sep : Z) :
  decoded_name filename = a ++ sep :: b ->
  a <> [] -> b <> [] ->
  Forall (fun c => is_word c = true) a ->
  Forall (fun c => is_word c = true) b ->
  is_word sep = false ->
  has_script (decoded_name filename) = false ->
  ~ In a FOREIGN_STOPWORDS -> ~ In b FOREIGN_STOPWORDS ->
  findall_words (decoded_name filename) = [a; b] /\
  is_english_file filename = Returns true.
Proof.
  intros Hd Ha Hb Hwa Hwb Hsep Hs Hna Hnb.
  assert (findall_words (decoded_name filename) = [a; b]) as Htok.
  { rewrite Hd. unfold findall_words.
    rewrite (findall_words_from_sep a b sep Hsep []).
    fold (findall_words a).
    now rewrite (findall_words_run a Ha Hwa), (findall_words_run b Hb Hwb). }
  split; [exact Htok|].
  assert (found_foreign_words (findall_words (decoded_name filename)) = [])
    as Hf.
  { apply found_foreign_words_nil. rewrite Htok.
    intros w [<-|[<-|[]]]; assumption. }
  unfold is_english_file.
  now destruct (branch_of_clean filename Hs Hf) as [-> | ->].
Qed.
End Tokens.

(** A name with an underscore, and two words with a space between them. *)
Lemma tokens_are_runs_of_word_characters_witness :
  @findall_words cpython_fragment (str "foo_bar") = [str "foo_bar"] /\
  @findall_words cpython_fragment (str "le" ++ 32%Z :: str "livre")
  = @findall_words cpython_fragment (str "le")
    ++ @findall_words cpython_fragment (str "livre").
Proof.
  split.
  - apply (proj1 (@tokens_are_runs_of_word_characters cpython_fragment)).
    + discriminate.
    + repeat constructor.
  - apply (proj2 (@tokens_are_runs_of_word_characters cpython_fragment)).
    reflexivity.
Defined.

(** The stopword [matemática] joined to the next word by an underscore. *)
Lemma stopword_inside_token_not_found_witness :
  @decoded_name cpython_fragment UNDERSCORE_NAME
  = (str "matem" ++ [0xE1%Z] ++ str "tica_avanzada") ++ 46%Z :: str "pdf" /\
  @is_english_file cpython_fragment UNDERSCORE_NAME = Returns true.
Proof.
  split; [reflexivity|].
  apply (@stopword_inside_token_not_found cpython_fragment UNDERSCORE_NAME
           (str "matem" ++ [0xE1%Z] ++ str "tica_avanzada") (str "pdf") 46%Z).
  - reflexivity.
  - discriminate.
  - discriminate.
  - repeat constructor.
  - repeat constructor.
  - reflexivity.
  - reflexivity.
  - apply (no_stopword_among [str "matem" ++ [0xE1%Z] ++ str "tica_avanzada"]);
      [vm_compute; reflexivity|now left].
  - apply (no_stopword_among [str "pdf"]); [vm_compute; reflexivity|now left].
Defined.

(** ** Paths *)

Lemma split_last_no_sep (sep : Z) (s : pystr) :
  existsb (Z.eqb sep) (split_last sep s) = false.
Proof.
  induction s as [|c s IH]; [reflexivity|]. cbn [split_last].
  destruct (existsb (Z.eqb sep) s) eqn:Hs; [exact IH|].
  destruct (c =? sep)%Z eqn:Hc; [exact Hs|].
  cbn [existsb]. rewrite Hs, Z.eqb_sym, Hc. reflexivity.
Qed.

Lemma split_last_suffix (sep : Z) (s : pystr) :
  exists prefix, s = prefix ++ split_last sep s.
Proof.
  induction s as [|c s (p & Hp)]; [now exists []|]. cbn [split_last].
  destruct (existsb (Z.eqb sep) s).
  - exists (c :: p). simpl. now rewrite <- Hp.
  - destruct (c =? sep)%Z; [now exists [c]|now exists []].
Qed.

Lemma existsb_eqb_false (x : Z) (s : pystr) :
  existsb (Z.eqb x) s = false -> ~ In x s.
Proof.
  intros He Hin. assert (existsb (Z.eqb x) s = true) as Ht.
  { apply existsb_exists. exists x. split; [exact Hin|apply Z.eqb_refl]. }
  congruence.
Qed.

Lemma path_join_relative (a name : pystr) :
  a <> [] -> endswith a [47%Z] = false -> ~ In 47%Z name ->
  path_join a name = a ++ 47%Z :: name.
Proof.
  intros Ha He Hn. unfold path_join.
  assert (starts_with [47%Z] name = false) as ->.
  { destruct name as [|d name]; [reflexivity|]. cbn [starts_with].
    destruct (47 =? d)%Z eqn:Hd; [|reflexivity].
    apply Z.eqb_eq in Hd. subst d. destruct Hn. now left. }
  now rewrite (bool_decide_eq_false_2 _ Ha), He.
Qed.

(** X17. A link whose last segment has no percent sign is saved under its
    last segment: the name is the text after the last slash of the link,
    it has no slash, and the final path is that name inside the download
    directory. *)
Theorem plain_link_saved_under_its_name (url : pystr) :
  existsb (Z.eqb 37) (split_last 47 url) = false ->
  friendly_filename url = split_last 47 url /\
  (exists prefix, url = prefix ++ friendly_filename url) /\
  ~ In 47%Z (friendly_filename url) /\
  final_path_of url = str "downloads/" ++ friendly_filename url.
Proof.
  intros Hplain.
  assert (friendly_filename url = split_last 47 url) as Hname
    by (unfold friendly_filename, unquote; now rewrite Hplain).
  pose proof (existsb_eqb_false _ _ (split_last_no_sep 47 url)) as Hslash.
  rewrite Hname. split; [reflexivity|]. split; [apply split_last_suffix|].
  split; [exact Hslash|].
  unfold final_path_of. rewrite Hname.
  now rewrite (path_join_relative DOWNLOAD_DIR).
Qed.

(** A link with no percent sign. *)
Lemma plain_link_saved_under_its_name_witness :
  existsb (Z.eqb 37) (split_last 47 BOOK_URL) = false /\
  final_path_of BOOK_URL = str "downloads/foo_bar.pdf".
Proof.
  split; [reflexivity|].
  destruct (plain_link_saved_under_its_name BOOK_URL) as (_ & _ & _ & Hf);
    [reflexivity|].
  exact Hf.
Defined.

Section AbsoluteName.
Context (env : environment) (url : pystr).

(** X18. A link whose last segment decodes to a name that begins with a
    slash is downloaded to that name as an absolute path: the temporary
    and the final path are both the name itself, outside the working
    directory and the download directory, and a run of [wget] that ends
    well leaves the file there. *)
Theorem absolute_name_leaves_download_dir (rest : pystr) (w : world) :
  friendly_filename url = 47%Z :: rest ->
  (47%Z :: rest) ∉ files w ->
  returncode (wget env (length (wget_runs w)) url) = 0%Z ->
  temp_path_of env url = 47%Z :: rest /\
  final_path_of url = 47%Z :: rest /\
  fst (download_with_wget env url w) = Returns Succeeded /\
  (47%Z :: rest) ∈ files (snd (download_with_wget env url w)).
Proof.
  intros Hname Hout Hok.
  assert (final_path_of url = 47%Z :: rest) as Hfinal
    by (unfold final_path_of, path_join; now rewrite Hname).
  assert (temp_path_of env url = 47%Z :: rest) as Htemp
    by (unfold temp_path_of, path_join; now rewrite Hname).
  split; [exact Htemp|]. split; [exact Hfinal|].
  destruct (download_with_wget_succeeds env url w 0) as (Hf & _ & _ & Hin & _).
  - unfold target_ready. rewrite Htemp, Hfinal.
    now rewrite (bool_decide_eq_true_2 _ eq_refl).
  - now rewrite Hfinal.
  - unfold SERVICE_UNAVAILABLE_RETRIES. lia.
  - intros j Hj. lia.
  - now rewrite Nat.add_0_r.
  - split; [exact Hf|]. now rewrite <- Hfinal.
Qed.
End AbsoluteName.

(** A link whose last segment has two escaped slashes. *)
Lemma absolute_name_leaves_download_dir_witness :
  friendly_filename ABSOLUTE_URL = str "/tmp/a.pdf" /\
  final_path_of ABSOLUTE_URL = str "/tmp/a.pdf" /\
  str "/tmp/a.pdf"
  ∈ files (snd (download_with_wget unreachable ABSOLUTE_URL (initial_world ∅))).
Proof.
  split; [reflexivity|].
  destruct (absolute_name_leaves_download_dir unreachable ABSOLUTE_URL
              (str "tmp/a.pdf") (initial_world ∅))
    as (_ & Hfinal & _ & Hin).
  - reflexivity.
  - simpl. apply not_elem_of_empty.
  - reflexivity.
  - split; [exact Hfinal|exact Hin].
Defined.
